(** * skin_wound_capture: the frame-quality gate of [script.js]

    A shallow embedding of the capture page's script: the [argmax] helper,
    the hand-written [preprocess] routine, the tensor pipeline of the timed
    [runInference] loop, the [updateUI] gate with its 20 second grace timer,
    and the start-up chain [initializeModel] / [startWebcam] /
    [startPredictionLoop].

    Conventions of the embedding.
    - A JavaScript number is an IEEE-754 binary64 value, modelled by the
      standard library's [spec_float] with precision 53 and [emax] 1024.
      A store into a [Float32Array] rounds to binary32 ([fround]).
    - [Date.now()] returns integer milliseconds, modelled in [Z].  The clock
      is an oracle [now : nat -> Z]: the [n]-th call of [Date.now()] since
      page load returns [now n], and the world counts the calls made.
    - The DOM elements, the console, the camera and the animation-frame queue
      are fields of an explicit [World]; calls into the browser or into the
      inference libraries are recorded in its [effects] trace.
    - Exceptions are values of [Result]; a [try]/[catch] is a match on it. *)

From Stdlib Require Import ZArith QArith Qabs Lia String Ascii.
From Stdlib Require Import Floats.SpecFloat.
From stdpp Require Import base list strings.

Set Default Proof Using "Type".
Local Open Scope Z_scope.
Local Open Scope string_scope.
Local Open Scope list_scope.
Local Open Scope nat_scope.

(* ===================================================================== *)
(** ** Numbers *)
(* ===================================================================== *)

(** A JavaScript number. *)
Definition number : Type := spec_float.

Definition NaN : number := S754_nan.

Definition is_nan (x : number) : bool :=
  match x with S754_nan => true | _ => false end.

(** An integer literal or an integer-valued array element as a number. *)
Definition of_Z (z : Z) : number := binary_normalize 53 1024 z 0 false.

Definition js_div (x y : number) : number := SFdiv 53 1024 x y.
Definition js_sub (x y : number) : number := SFsub 53 1024 x y.

(** The decimal literal [m / 10^3], such as [0.485]: the binary64 value
    nearest to it, which is what correctly rounded division of the two
    integers gives. *)
Definition milli (m : Z) : number := js_div (of_Z m) (of_Z 1000).

(** [x > y] on numbers; false as soon as one side is NaN. *)
Definition js_gt (x y : number) : bool := SFltb y x.

(** Rounding to binary32, applied by every store into a [Float32Array]. *)
Definition fround (x : number) : number :=
  match x with
  | S754_finite s m e => binary_normalize 24 128 (cond_Zopp s (Zpos m)) e s
  | _ => x
  end.

(** The rational value of a finite number. *)
Definition number_to_Q (x : number) : option Q :=
  match x with
  | S754_zero _ => Some 0%Q
  | S754_finite s m e =>
      Some (inject_Z (cond_Zopp s (Zpos m)) * Qpower (inject_Z 2) e)%Q
  | _ => None
  end.

(** A value read from an array: a number, or [undefined] past the end. *)
Inductive value : Type :=
| Undefined
| Num (x : number).

Definition array_get (array : list number) (i : nat) : value :=
  match array !! i with
  | Some x => Num x
  | None => Undefined
  end.

(** [a > b] on values: [undefined] converts to NaN. *)
Definition value_gt (a b : value) : bool :=
  match a, b with
  | Num x, Num y => js_gt x y
  | _, _ => false
  end.

(* ===================================================================== *)
(** ** [argmax] *)
(* ===================================================================== *)

(** The [for] loop of [argmax]: [iters] iterations are left, [i] is the loop
    counter, [max] and [maxIndex] are the two locals. *)
Fixpoint argmax_loop (array : list number) (iters i : nat)
    (max : value) (maxIndex : nat) : nat :=
  match iters with
  | O => maxIndex
  | S iters' =>
      if value_gt (array_get array i) max
      then argmax_loop array iters' (S i) (array_get array i) i
      else argmax_loop array iters' (S i) max maxIndex
  end.

(** [let max = array[0]; let maxIndex = 0; for (i = 1; i < array.length; i++)]. *)
Definition argmax (array : list number) : nat :=
  argmax_loop array (length array - 1) 1 (array_get array 0) 0.

(* ===================================================================== *)
(** ** [preprocess]: the hand-written normalisation *)
(* ===================================================================== *)

(** The canvas's [ImageData]: RGBA bytes, row by row. *)
Record ImageData : Type := mkImageData {
  data : list Z;
  width : nat;
  height : nat
}.

(** An [onnx.Tensor]: a flat buffer, an element type and the dimensions. *)
Record Tensor : Type := mkTensor {
  tensor_data : list number;
  tensor_type : string;
  tensor_dims : list nat
}.

Definition mean : list number := [milli 485; milli 456; milli 406].
Definition std : list number := [milli 229; milli 224; milli 225].

(** [mean[c]] and [std[c]]: [undefined], hence NaN in arithmetic, past the
    end. *)
Definition num_get (l : list number) (i : nat) : number :=
  match l !! i with
  | Some x => x
  | None => NaN
  end.

(** [data[i]] of the byte array as a number; NaN past the end. *)
Definition data_get (d : list Z) (i : nat) : number :=
  match d !! i with
  | Some b => of_Z b
  | None => NaN
  end.

(** [(x / 255.0 - mean[c]) / std[c]]. *)
Definition normalize (c : nat) (x : number) : number :=
  js_div (js_sub (js_div x (of_Z 255)) (num_get mean c)) (num_get std c).

(** [tensorData[offset++] = v]. *)
Definition store (st : list number * nat) (v : number) : list number * nat :=
  (<[st.2 := fround v]> st.1, S st.2).

(** The body of the inner loop, for the pixel in row [h] and column [w]. *)
Definition preprocess_pixel (img : ImageData) (h : nat)
    (st : list number * nat) (w : nat) : list number * nat :=
  let index := (h * width img + w) * 4 in
  let st := store st (normalize 0 (data_get (data img) (index + 0))) in
  let st := store st (normalize 1 (data_get (data img) (index + 1))) in
  let st := store st (normalize 2 (data_get (data img) (index + 2))) in
  st.

Definition preprocess_row (img : ImageData)
    (st : list number * nat) (h : nat) : list number * nat :=
  foldl (preprocess_pixel img h) st (seq 0 (width img)).

(** [preprocess(imageData)] on a frame that is not empty, as the 224 x 224
    canvas always delivers.  With [width * height = 0] the buffer is empty and
    the constructor [new onnx.Tensor] throws a [RangeError] instead of
    returning; the statements about [preprocess] are about frames with a
    pixel. *)
Definition preprocess (img : ImageData) : Tensor :=
  let tensorData := replicate (3 * width img * height img) (of_Z 0) in
  let st := foldl (preprocess_row img) (tensorData, 0) (seq 0 (height img)) in
  mkTensor st.1 "float32" [1; 3; height img; width img].

(** What the declared dimensions [[1; 3; H; W]] mean for the flat buffer:
    channel [c], row [h], column [w] lives at this index. *)
Definition planar_index (H W c h w : nat) : nat := c * (H * W) + h * W + w.

(** The same element in the interleaved, pixel-by-pixel order. *)
Definition interleaved_index (W c h w : nat) : nat := (h * W + w) * 3 + c.

(** The preprocessing step as the specification words it: the normalised
    value of channel [c] of pixel [(h, w)], for every channel in turn,
    channel-first. *)
Definition preprocess_planar (img : ImageData) : Tensor :=
  let H := height img in
  let W := width img in
  mkTensor
    (c ← seq 0 3; h ← seq 0 H; w ← seq 0 W;
     [fround (normalize c (data_get (data img) ((h * W + w) * 4 + c)))])
    "float32" [1; 3; H; W].

(** A frame in which every pixel is the opaque colour [(r, g, b)]. *)
Definition uniform_frame (W H : nat) (r g b : Z) : ImageData :=
  mkImageData (p ← seq 0 (H * W); [r; g; b; 255%Z]) W H.

Definition gray_frame : ImageData := uniform_frame 224 224 128 128 128.
Definition red_frame : ImageData := uniform_frame 224 224 255 0 0.

(** The three values that [preprocess] stores for the pixel [(h, w)]. *)
Definition pixel_values (img : ImageData) (h w : nat) : list number :=
  let index := (h * width img + w) * 4 in
  [fround (normalize 0 (data_get (data img) (index + 0)));
   fround (normalize 1 (data_get (data img) (index + 1)));
   fround (normalize 2 (data_get (data img) (index + 2)))].

(** The exact value of [(v / 255 - m / 1000) / (s / 1000)]. *)
Definition exact_normalized (v m s : Z) : Q :=
  ((inject_Z v / inject_Z 255 - inject_Z m / inject_Z 1000)
     / (inject_Z s / inject_Z 1000))%Q.

Definition gray_expected (c : nat) : Q :=
  match c with
  | 0 => exact_normalized 128 485 229
  | 1 => exact_normalized 128 456 224
  | _ => exact_normalized 128 406 225
  end.

(** Two rationals agree within [eps]. *)
Definition within (eps x y : Q) : Prop := (Qabs (x - y) <= eps)%Q.

(* ===================================================================== *)
(** ** The tensor pipeline of the timed [runInference] *)
(* ===================================================================== *)

Module Tf.

(** A tf.js tensor: its shape and its values in row-major order. *)
Record tensor : Type := mk {
  shape : list nat;
  values : list number
}.

Definition scalar (x : number) : tensor := mk [] [fround x].
Definition tensor1d (l : list number) : tensor :=
  mk [length l] (fround <$> l).

Section Kernels.

(** The element-wise float32 kernels of the backend in use. *)
Variables kdiv ksub : number -> number -> number.

(** [a.op(b)] where [b] is a scalar or a vector along the last axis of
    [a]: element [i] of [a] meets element [i mod size b] of [b]. *)
Definition broadcast (op : number -> number -> number)
    (a b : tensor) : tensor :=
  mk (shape a)
     (imap (fun i x => op x (num_get (values b) (i mod length (values b))))
           (values a)).

Definition div := broadcast kdiv.
Definition sub := broadcast ksub.

Definition expandDims (t : tensor) : tensor := mk (1 :: shape t) (values t).

(** [t.transpose([0, 3, 1, 2])] of a rank-4 tensor. *)
Definition transpose_0312 (t : tensor) : tensor :=
  match shape t with
  | [n; h; w; c] =>
      mk [n; c; h; w]
         (b ← seq 0 n; k ← seq 0 c; p ← seq 0 (h * w);
          [num_get (values t) ((b * (h * w) + p) * c + k)])
  | _ => t
  end.

(** The [try] block of [runInference] from the resized frame
    [tf.browser.fromPixels(video).resizeBilinear([224, 224]).toFloat()]
    up to the [onnx.Tensor] handed to the session. *)
Definition input_tensor (resized : tensor) : Tensor :=
  let imageTensor :=
    expandDims
      (div (sub (div resized (scalar (of_Z 255))) (tensor1d mean))
           (tensor1d std)) in
  let transposedTensor := transpose_0312 imageTensor in
  let rawTensorData := values transposedTensor in
  mkTensor rawTensorData "float32" [1; 3; 224; 224].

(** One element of the pipeline's result, from the resized sample [x] of
    channel [c]. *)
Definition normalize32 (c : nat) (x : number) : number :=
  kdiv (ksub (kdiv x (fround (of_Z 255))) (num_get (fround <$> mean) c))
       (num_get (fround <$> std) c).

End Kernels.

End Tf.

(* ===================================================================== *)
(** ** Labels and strings *)
(* ===================================================================== *)

Definition labels : list string :=
  ["good_quality"; "blurry"; "too_dark"; "poor_framing"].

(** [s.replace(c, d)] with one-character strings: the first occurrence
    only. *)
Fixpoint replace_first (c d : ascii) (s : string) : string :=
  match s with
  | EmptyString => EmptyString
  | String a s' =>
      if Ascii.eqb a c then String d s' else String a (replace_first c d s')
  end.

(** The "no entry" sign U+1F6AB that opens the overlay message, as its
    UTF-8 bytes. *)
Definition no_entry : string :=
  String "240" (String "159" (String "154" (String "171" EmptyString))).

Definition poor_message (predictedLabel : string) : string :=
  (no_entry ++ " " ++ replace_first "_" " " predictedLabel ++ " detected!")%string.

(* ===================================================================== *)
(** ** The page as a state *)
(* ===================================================================== *)

(** Calls that leave the script. *)
Inductive Effect : Type :=
| ConsoleLog (msg : string)
| ConsoleError (msg : string)
| LoadModel (path : string)
| GetUserMedia
| VideoPlay
| TfDispose
| RequestAnimationFrame.

Global Instance Effect_eq_dec : EqDecision Effect.
Proof. solve_decision. Defined.

(** The overlay and the capture button: all that the user can observe. *)
Record Dom : Type := mkDom {
  overlay_textContent : string;
  overlay_display : string;
  button_textContent : string;
  button_disabled : bool
}.

Record World : Type := mkWorld {
  dom : Dom;
  modelLoaded : bool;
  isPredicting : bool;
  poorQualityStartTime : option Z;
  (** how many times [Date.now()] has been called *)
  clock_reads : nat;
  (** [window.onload] has not fired yet *)
  onload_armed : bool;
  (** the promise of [getUserMedia] is not settled yet *)
  media_pending : bool;
  (** [video.onloadedmetadata] is installed *)
  onloadedmetadata : bool;
  (** [runInference] callbacks waiting for the next animation frame *)
  raf_queue : nat;
  effects : list Effect
}.

Definition with_dom (f : Dom -> Dom) (w : World) : World :=
  mkWorld (f (dom w)) (modelLoaded w) (isPredicting w)
    (poorQualityStartTime w) (clock_reads w) (onload_armed w)
    (media_pending w) (onloadedmetadata w) (raf_queue w) (effects w).

Definition set_overlay_textContent (s : string) : World -> World :=
  with_dom (fun d =>
    mkDom s (overlay_display d) (button_textContent d) (button_disabled d)).
Definition set_overlay_display (s : string) : World -> World :=
  with_dom (fun d =>
    mkDom (overlay_textContent d) s (button_textContent d) (button_disabled d)).
Definition set_button_textContent (s : string) : World -> World :=
  with_dom (fun d =>
    mkDom (overlay_textContent d) (overlay_display d) s (button_disabled d)).
Definition set_button_disabled (b : bool) : World -> World :=
  with_dom (fun d =>
    mkDom (overlay_textContent d) (overlay_display d) (button_textContent d) b).

Definition set_modelLoaded (b : bool) (w : World) : World :=
  mkWorld (dom w) b (isPredicting w) (poorQualityStartTime w) (clock_reads w)
    (onload_armed w) (media_pending w) (onloadedmetadata w) (raf_queue w)
    (effects w).
Definition set_isPredicting (b : bool) (w : World) : World :=
  mkWorld (dom w) (modelLoaded w) b (poorQualityStartTime w) (clock_reads w)
    (onload_armed w) (media_pending w) (onloadedmetadata w) (raf_queue w)
    (effects w).
Definition set_poorQualityStartTime (t : option Z) (w : World) : World :=
  mkWorld (dom w) (modelLoaded w) (isPredicting w) t (clock_reads w)
    (onload_armed w) (media_pending w) (onloadedmetadata w) (raf_queue w)
    (effects w).
Definition set_clock_reads (n : nat) (w : World) : World :=
  mkWorld (dom w) (modelLoaded w) (isPredicting w) (poorQualityStartTime w) n
    (onload_armed w) (media_pending w) (onloadedmetadata w) (raf_queue w)
    (effects w).
Definition set_onload_armed (b : bool) (w : World) : World :=
  mkWorld (dom w) (modelLoaded w) (isPredicting w) (poorQualityStartTime w)
    (clock_reads w) b (media_pending w) (onloadedmetadata w) (raf_queue w)
    (effects w).
Definition set_media_pending (b : bool) (w : World) : World :=
  mkWorld (dom w) (modelLoaded w) (isPredicting w) (poorQualityStartTime w)
    (clock_reads w) (onload_armed w) b (onloadedmetadata w) (raf_queue w)
    (effects w).
Definition set_onloadedmetadata (b : bool) (w : World) : World :=
  mkWorld (dom w) (modelLoaded w) (isPredicting w) (poorQualityStartTime w)
    (clock_reads w) (onload_armed w) (media_pending w) b (raf_queue w)
    (effects w).
Definition set_raf_queue (n : nat) (w : World) : World :=
  mkWorld (dom w) (modelLoaded w) (isPredicting w) (poorQualityStartTime w)
    (clock_reads w) (onload_armed w) (media_pending w) (onloadedmetadata w) n
    (effects w).

(** Append one call to the trace. *)
Definition emit (e : Effect) (w : World) : World :=
  mkWorld (dom w) (modelLoaded w) (isPredicting w) (poorQualityStartTime w)
    (clock_reads w) (onload_armed w) (media_pending w) (onloadedmetadata w)
    (raf_queue w) (effects w ++ [e]).

(** The page right after the script has run its top level: no flag set, no
    timer, the [onload] handler armed; the markup decides the first [Dom]. *)
Definition boot (d : Dom) : World :=
  mkWorld d false false None 0 true false false 0 [].

(** The outcome of a block that may throw. *)
Inductive Result (A : Type) : Type :=
| Ok (a : A)
| Throw (e : string).
Arguments Ok {A} a.
Arguments Throw {A} e.

(* ===================================================================== *)
(** ** The gate, the loop and the start-up chain *)
(* ===================================================================== *)

Definition TIMEOUT_SECONDS : Z := 20.

(** [(t - poorQualityStartTime) / 1000]: the operands are integers below
    2^53, the quotient is compared with the integer [TIMEOUT_SECONDS] only,
    and correctly rounded division is monotone and exact at 20000 / 1000, so
    the comparison is the one of the exact quotient.  [null] counts as 0. *)
Definition elapsed_seconds (t : Z) (start : option Z) : Q :=
  (inject_Z (t - default 0%Z start) / inject_Z 1000)%Q.

(** What the environment hands to one iteration of [runInference]: some call
    of the [try] block up to [outputTensor.data] throws or rejects, or the
    model's output buffer arrives. *)
Inductive Inference : Type :=
| Rejected (e : string)
| Scores (output : list number).

(** What can happen to the page. *)
Inductive Event : Type :=
| WindowLoad (loaded hasMedia : bool)
    (** [window.onload] fires; [loaded] tells whether creating the session and
        [loadModel] succeed, [hasMedia] whether
        [navigator.mediaDevices.getUserMedia] exists *)
| MediaSettled (granted : bool)
    (** the promise of [getUserMedia] resolves or rejects *)
| LoadedMetadata (r : Inference)
    (** the video fires [loadedmetadata]; [r] feeds the first iteration if a
        loop starts *)
| AnimationFrame (r : Inference).
    (** the browser runs one queued animation-frame callback *)

Section Clock.

(** [now n] is what the [n]-th call of [Date.now()] returns. *)
Variable now : nat -> Z.

Definition Date_now (w : World) : Z * World :=
  (now (clock_reads w), set_clock_reads (S (clock_reads w)) w).

(** [updateUI(predictedLabel)]; [None] is [undefined], on which
    [predictedLabel.replace] throws before anything is assigned. *)
Definition updateUI (predictedLabel : option string) (w : World)
    : Result World :=
  if decide (predictedLabel = Some "good_quality") then
    let w := set_overlay_display "none" w in
    let w := set_button_textContent "Take Picture" w in
    let w := set_button_disabled false w in
    let w := set_poorQualityStartTime None w in
    Ok w
  else
    match predictedLabel with
    | None => Throw "TypeError"
    | Some label =>
        let w := set_overlay_textContent (poor_message label) w in
        let w := set_overlay_display "block" w in
        let w := set_button_textContent "Take Anyway" w in
        let w :=
          match poorQualityStartTime w with
          | None =>
              let '(t, w) := Date_now w in
              set_poorQualityStartTime (Some t) w
          | Some _ => w
          end in
        let '(t, w) := Date_now w in
        let elapsedSeconds := elapsed_seconds t (poorQualityStartTime w) in
        if Qle_bool (inject_Z TIMEOUT_SECONDS) elapsedSeconds then
          let w := set_overlay_textContent "You can take the picture now." w in
          let w := set_button_disabled false w in
          Ok w
        else
          let w := set_button_disabled true w in
          Ok w
    end.

(** The [try] block of [runInference]. *)
Definition try_block (r : Inference) (w : World) : Result World :=
  match r with
  | Rejected e => Throw e
  | Scores output =>
      let prediction := argmax output in
      let predictedLabel := labels !! prediction in
      updateUI predictedLabel w
  end.

Definition requestAnimationFrame (w : World) : World :=
  set_raf_queue (S (raf_queue w)) (emit RequestAnimationFrame w).

(** One iteration: [try { ... } catch (e) { console.error(...) }], then
    [tf.dispose()], then the next iteration is queued.  The iteration is one
    step of the model: the handlers that may run at its [await]s read and
    write nothing that [updateUI], its only writer, touches, and
    [isPredicting] is set before the first iteration begins.  [tf.dispose()],
    called without argument outside the [try], is taken not to throw. *)
Definition runInference (r : Inference) (w : World) : World :=
  let w :=
    match try_block r w with
    | Ok w' => w'
    | Throw _ => emit (ConsoleError "Prediction failed:") w
    end in
  let w := emit TfDispose w in
  requestAnimationFrame w.

(** [r] feeds the first call of [runInference]. *)
Definition startPredictionLoop (r : Inference) (w : World) : World :=
  if negb (modelLoaded w) || isPredicting w then w
  else
    let w := set_isPredicting true w in
    runInference r w.

Definition startWebcam (hasMedia : bool) (w : World) : World :=
  if hasMedia then set_media_pending true (emit GetUserMedia w) else w.

Definition initializeModel (loaded hasMedia : bool) (w : World) : World :=
  let w := emit (LoadModel "efficientnet_quality_model.onnx") w in
  if loaded then
    let w := set_modelLoaded true w in
    let w := emit (ConsoleLog "ONNX model loaded successfully!") w in
    startWebcam hasMedia w
  else
    let w := emit (ConsoleError "Failed to load model:") w in
    let w := set_overlay_textContent "Error loading model. Check console." w in
    set_overlay_display "block" w.

(** The [.then] and [.catch] handlers installed by [startWebcam]. *)
Definition media_settled (granted : bool) (w : World) : World :=
  if granted then set_onloadedmetadata true w
  else
    let w := emit (ConsoleError "Webcam access denied:") w in
    let w :=
      set_overlay_textContent "Webcam access denied. Please enable it." w in
    set_overlay_display "block" w.

(** The [onloadedmetadata] handler. *)
Definition loaded_metadata (r : Inference) (w : World) : World :=
  startPredictionLoop r (emit VideoPlay w).

(** The page reacts to one event; an event nobody listens to changes
    nothing. *)
Definition handle (ev : Event) (w : World) : World :=
  match ev with
  | WindowLoad loaded hasMedia =>
      if onload_armed w
      then initializeModel loaded hasMedia (set_onload_armed false w)
      else w
  | MediaSettled granted =>
      if media_pending w
      then media_settled granted (set_media_pending false w)
      else w
  | LoadedMetadata r =>
      if onloadedmetadata w then loaded_metadata r w else w
  | AnimationFrame r =>
      match raf_queue w with
      | O => w
      | S n => runInference r (set_raf_queue n w)
      end
  end.

Definition handle_all (evs : list Event) (w : World) : World :=
  foldl (fun w ev => handle ev w) w evs.

(** Frames of a running loop, one after the other. *)
Definition frames (rs : list Inference) (w : World) : World :=
  foldl (fun w r => runInference r w) w rs.

(** [updateUI] on a frame whose label is a string. *)
Definition gate (label : string) (w : World) : World :=
  match updateUI (Some label) w with
  | Ok w' => w'
  | Throw _ => w
  end.

(** The gate fed with one label per frame. *)
Definition gate_all (ls : list string) (w : World) : World :=
  foldl (fun w l => gate l w) w ls.


End Clock.


(** A clock ticking once a second from page load: reading [n] is [n] seconds. *)
Definition seconds_clock (n : nat) : Z := (1000 * Z.of_nat n)%Z.

(* ===================================================================== *)
(** ** The first version of the script: no timer, [preprocess] in the loop *)
(* ===================================================================== *)

Module V1.

(** The opening of the overlay message, byte for byte as the file holds
    it. *)
Definition sign : string :=
  String "195" (String "176" (String "197" (String "184"
    (String "197" (String "161" (String "194" (String "171" EmptyString))))))).

Definition poor_message (predictedLabel : string) : string :=
  (sign ++ " " ++ replace_first "_" " " predictedLabel ++ " detected!")%string.

(** [updateUI(predictedLabel)] without the timer; [None] is [undefined]. *)
Definition updateUI (predictedLabel : option string) (w : World)
    : Result World :=
  if decide (predictedLabel = Some "good_quality") then
    let w := set_overlay_display "none" w in
    let w := set_button_disabled false w in
    let w := set_button_textContent "Take Picture" w in
    Ok w
  else
    match predictedLabel with
    | None => Throw "TypeError"
    | Some label =>
        let w := set_overlay_textContent (poor_message label) w in
        let w := set_overlay_display "block" w in
        let w := set_button_disabled true w in
        Ok w
    end.

Section Session.

(** [session.run([inputTensor])] and the read of the first output's [data]:
    the loaded model, a function of the tensor it is given. *)
Variable session_run : Tensor -> Inference.

(** The [try] block of [runInference]; [frame] is what [drawImage] and
    [getImageData] deliver from the 224 x 224 canvas, or their exception. *)
Definition try_block (frame : Result ImageData) (w : World) : Result World :=
  match frame with
  | Throw e => Throw e
  | Ok imageData =>
      let inputTensor := preprocess imageData in
      match session_run inputTensor with
      | Rejected e => Throw e
      | Scores output =>
          let prediction := argmax output in
          let predictedLabel := labels !! prediction in
          updateUI predictedLabel w
      end
  end.

Definition runInference (frame : Result ImageData) (w : World) : World :=
  let w :=
    match try_block frame w with
    | Ok w' => w'
    | Throw _ => emit (ConsoleError "Prediction failed:") w
    end in
  requestAnimationFrame w.

Definition startPredictionLoop (frame : Result ImageData) (w : World)
    : World :=
  if negb (modelLoaded w) || isPredicting w then w
  else
    let w := set_isPredicting true w in
    runInference frame w.

(** Frames of a running loop, one after the other. *)
Definition frames (fs : list (Result ImageData)) (w : World) : World :=
  foldl (fun w f => runInference f w) w fs.

(** The label that reaches the body of [updateUI] for a frame, if any. *)
Definition label_of (frame : Result ImageData) : option string :=
  match frame with
  | Throw _ => None
  | Ok imageData =>
      match session_run (preprocess imageData) with
      | Rejected _ => None
      | Scores output => labels !! argmax output
      end
  end.

End Session.

End V1.

(* ===================================================================== *)
(** ** Vocabulary of the statements *)
(* ===================================================================== *)

Definition nan_free (array : list number) : Prop :=
  forall x, x ∈ array -> is_nan x = false.

(** [m] holds a greatest element of [array] and every element before [m] is
    strictly smaller when the array is free of NaN. *)
Definition first_maximum (array : list number) (m : nat) : Prop :=
  exists xm,
    array !! m = Some xm /\
    (forall j x, array !! j = Some x -> js_gt x xm = false) /\
    (nan_free array ->
       (forall j x, array !! j = Some x -> SFleb x xm = true) /\
       (forall j x, j < m -> array !! j = Some x -> js_gt xm x = true)).

(** The scores [[0.5; 0.5; 0.1; 0.1]]. *)
Definition tie_scores : list number :=
  [js_div (of_Z 1) (of_Z 2); js_div (of_Z 1) (of_Z 2);
   js_div (of_Z 1) (of_Z 10); js_div (of_Z 1) (of_Z 10)].

(** A clock read at 0, 0 and 5 seconds: the frames arrive at 0, 5 and 10
    seconds and the first frame of a streak reads the clock twice. *)
Definition scenario_clock (n : nat) : Z :=
  match n with
  | 0 | 1 => 0%Z
  | _ => 5000%Z
  end.

(** The overlay and the button after a frame that is not good, read at time
    [t] in a streak that began at [t0]. *)
Definition poor_dom (label : string) (t t0 : Z) : Dom :=
  if Qle_bool (inject_Z TIMEOUT_SECONDS) (elapsed_seconds t (Some t0))
  then mkDom "You can take the picture now." "block" "Take Anyway" false
  else mkDom (poor_message label) "block" "Take Anyway" true.

(** The label that reaches the body of [updateUI] in an iteration, if any. *)
Definition label_of (r : Inference) : option string :=
  match r with
  | Rejected _ => None
  | Scores output => labels !! argmax output
  end.

(** What the gate reads and writes. *)
Definition gate_state (w : World) : Dom * option Z * nat :=
  (dom w, poorQualityStartTime w, clock_reads w).

(** The bookkeeping at the end of every iteration. *)
Definition finish (w : World) : World :=
  set_raf_queue (S (raf_queue w))
    (emit RequestAnimationFrame (emit TfDispose w)).

(** Nothing is armed, pending, installed or queued: no event has a
    listener. *)
Definition halted (w : World) : Prop :=
  onload_armed w = false /\ media_pending w = false /\
  onloadedmetadata w = false /\ raf_queue w = 0.

(** At most one callback is queued, and none unless the loop flag is set. *)
Definition one_loop (w : World) : Prop :=
  raf_queue w <= 1 /\ (isPredicting w = false -> raf_queue w = 0).

(** The loop is on: the flag is set and one callback is queued. *)
Definition running (w : World) : Prop :=
  isPredicting w = true /\ raf_queue w = 1.

(** How often a call occurs in a trace. *)
Definition calls (e : Effect) (trace : list Effect) : nat :=
  length (filter (fun e' => e' = e) trace).

(** Two frames of the same size that agree on every byte but the alpha
    bytes. *)
Definition same_colours (img img' : ImageData) : Prop :=
  width img = width img' /\ height img = height img' /\
  forall i, i mod 4 <> 3 -> data img !! i = data img' !! i.

(** A byte of a [Uint8ClampedArray]. *)
Definition is_byte (b : Z) : Prop := (0 <= b <= 255)%Z.

(** [(b / 255 - mean[c]) / std[c]] exactly, for the three channels. *)
Definition exact_channel (c : nat) (b : Z) : Q :=
  match c with
  | 0 => exact_normalized b 485 229
  | 1 => exact_normalized b 456 224
  | _ => exact_normalized b 406 225
  end.

(** The stored value of a byte of channel [c] is finite and within 10^-6 of
    the exact one; a boolean, so that it can be run over all bytes. *)
Definition accurate (c : nat) (b : Z) : bool :=
  match number_to_Q (fround (normalize c (of_Z b))) with
  | Some q => Qle_bool (Qabs (q - exact_channel c b)) (1 # 1000000)
  | None => false
  end.

(** The stored value grows strictly from byte [b] to byte [b + 1]. *)
Definition strictly_up (c : nat) (b : Z) : bool :=
  SFltb (fround (normalize c (of_Z b))) (fround (normalize c (of_Z (b + 1)))).

(** What must have happened before the camera is pending or granted, and
    before the loop flag is set. *)
Definition started_in_order (w : World) : Prop :=
  (media_pending w = true \/ onloadedmetadata w = true ->
   modelLoaded w = true /\ GetUserMedia ∈ effects w) /\
  (isPredicting w = true ->
   modelLoaded w = true /\ onloadedmetadata w = true /\
   GetUserMedia ∈ effects w /\ VideoPlay ∈ effects w).

(** The flag is set exactly while one callback is queued. *)
Definition flag_tracks_queue (w : World) : Prop :=
  (isPredicting w = false -> raf_queue w = 0) /\
  (isPredicting w = true -> raf_queue w = 1).

(** The trace of a page that makes each start-up call once and pairs every
    queued iteration with a [tf.dispose()]; before [onload] nothing has
    happened and nothing is pending. *)
Definition trace_ok (w : World) : Prop :=
  (onload_armed w = true ->
   effects w = [] /\ media_pending w = false /\
   onloadedmetadata w = false /\ raf_queue w = 0) /\
  calls GetUserMedia (effects w) <= 1 /\
  calls (LoadModel "efficientnet_quality_model.onnx") (effects w) <= 1 /\
  calls TfDispose (effects w) = calls RequestAnimationFrame (effects w).

(** A stand-in for the loaded model that calls every frame blurry. *)
Definition always_blurry (t : Tensor) : Inference :=
  Scores [of_Z 0; of_Z 1; of_Z 0; of_Z 0].

(** A resized frame of uniform gray, as tf.js holds it. *)
Definition gray_resized : Tf.tensor :=
  Tf.mk [224; 224; 3] (replicate (224 * 224 * 3) (of_Z 128)).

(* ===================================================================== *)
(** ** The order of numbers *)
(* ===================================================================== *)

Ltac cmp_cases :=
  repeat match goal with
  | |- context [Z.compare ?a ?b] => destruct (Z.compare_spec a b)
  | H : context [Z.compare ?a ?b] |- _ => destruct (Z.compare_spec a b)
  | |- context [Pos.compare_cont Eq ?a ?b] =>
      change (Pos.compare_cont Eq a b) with (Pos.compare a b);
      destruct (Pos.compare_spec a b)
  | H : context [Pos.compare_cont Eq ?a ?b] |- _ =>
      change (Pos.compare_cont Eq a b) with (Pos.compare a b) in H;
      destruct (Pos.compare_spec a b)
  end.

Ltac float_cases x := destruct x as [[|]|[|]| |[|] ? ?].

Ltac order_crush :=
  simpl; try discriminate; auto;
  cmp_cases; simpl; subst; try discriminate; auto; try lia.

Lemma SFltb_irrefl x : SFltb x x = false.
Proof. unfold SFltb, SFcompare. float_cases x; order_crush. Qed.

Lemma SFltb_trans x y z :
  SFltb x y = true -> SFltb y z = true -> SFltb x z = true.
Proof.
  unfold SFltb, SFcompare.
  float_cases x; float_cases y; float_cases z; order_crush.
Qed.

(** Numbers other than NaN are totally ordered: what lies below [z] lies
    below [y] or has [y] below [z]. *)
Lemma SFltb_cotrans x y z :
  is_nan y = false -> SFltb x z = true ->
  SFltb x y = true \/ SFltb y z = true.
Proof.
  unfold SFltb, SFcompare.
  float_cases x; float_cases y; float_cases z; order_crush.
Qed.

Lemma SFleb_negb_ltb x y :
  is_nan x = false -> is_nan y = false -> SFleb x y = negb (SFltb y x).
Proof.
  unfold SFltb, SFleb, SFcompare.
  float_cases x; float_cases y; order_crush.
Qed.

(* ===================================================================== *)
(** ** [argmax] *)
(* ===================================================================== *)

Lemma argmax_loop_spec (array : list number) iters :
  forall i m xm,
    i + iters = length array ->
    m < i ->
    array !! m = Some xm ->
    (forall j x, j < i -> array !! j = Some x -> js_gt x xm = false) ->
    (nan_free array ->
       forall j x, j < m -> array !! j = Some x -> js_gt xm x = true) ->
    let r := argmax_loop array iters i (Num xm) m in
    exists xr,
      array !! r = Some xr /\
      (forall j x, array !! j = Some x -> js_gt x xr = false) /\
      (nan_free array ->
         forall j x, j < r -> array !! j = Some x -> js_gt xr x = true).
Proof.
  induction iters as [|iters IH]; intros i m xm Hlen Hm Hxm Hmax Hfirst; simpl.
  - exists xm. split; [done|]. split; [|done].
    intros j x Hj. apply (Hmax j); [|done].
    apply lookup_lt_Some in Hj. lia.
  - destruct (lookup_lt_is_Some_2 array i) as [xi Hxi]; [lia|].
    unfold array_get. rewrite Hxi.
    change (value_gt (Num xi) (Num xm)) with (js_gt xi xm).
    destruct (js_gt xi xm) eqn:Hgt.
    + apply IH; [lia|lia|done| |].
      * intros j x Hj Hx. destruct (decide (j = i)) as [->|Hne].
        { rewrite Hxi in Hx. injection Hx as <-. apply SFltb_irrefl. }
        destruct (js_gt x xi) eqn:Hx'; [|done].
        rewrite <- (Hmax j x); [|lia|done].
        symmetry. unfold js_gt in *. by apply SFltb_trans with xi.
      * intros Hnan j x Hj Hx. unfold js_gt in *.
        destruct (SFltb_cotrans xm x xi) as [Hlt|Hlt]; [|done| |done].
        { apply Hnan. by eapply list_elem_of_lookup_2. }
        rewrite (Hmax j x) in Hlt; [done|lia|done].
    + apply IH; [lia|lia|done| |done].
      intros j x Hj Hx. destruct (decide (j = i)) as [->|Hne].
      { rewrite Hxi in Hx. by injection Hx as <-. }
      apply (Hmax j); [lia|done].
Qed.

Lemma argmax_first_maximum (array : list number) :
  array <> [] -> first_maximum array (argmax array).
Proof.
  intros Hne. destruct array as [|x0 rest]; [done|].
  unfold argmax, array_get. simpl length. simpl lookup.
  destruct (argmax_loop_spec (x0 :: rest) (length rest) 1 0 x0)
    as (xr & Hr & Hmax & Hfirst).
  - simpl. lia.
  - lia.
  - done.
  - intros j x Hj Hx. assert (j = 0) as -> by lia.
    simpl in Hx. injection Hx as <-. apply SFltb_irrefl.
  - intros _ j x Hj. lia.
  - replace (S (length rest) - 1) with (length rest) by lia.
    exists xr. split; [done|]. split; [done|].
    intros Hnan. split; [|by apply Hfirst].
    intros j x Hx. rewrite SFleb_negb_ltb.
    + specialize (Hmax j x Hx). unfold js_gt in Hmax. by rewrite Hmax.
    + apply Hnan. by eapply list_elem_of_lookup_2.
    + apply Hnan. by eapply list_elem_of_lookup_2.
Qed.

(** C4: on a non-empty score array [argmax] returns an index that holds a
    greatest value, and when no score is NaN every earlier score is strictly
    smaller, so among equal maxima the lowest index wins; on
    [[0.5; 0.5; 0.1; 0.1]] it returns 0. *)
Theorem argmax_returns_first_maximum (array : list number) :
  array <> [] ->
  first_maximum array (argmax array) /\ argmax tie_scores = 0.
Proof.
  intros Hne. split; [by apply argmax_first_maximum|].
  vm_compute. reflexivity.
Qed.

Lemma argmax_returns_first_maximum_witness :
  tie_scores <> [] /\ first_maximum tie_scores (argmax tie_scores) /\
  argmax tie_scores = 0.
Proof.
  split; [discriminate|].
  apply (argmax_returns_first_maximum tie_scores). discriminate.
Defined.

(* ===================================================================== *)
(** ** The gate: one frame *)
(* ===================================================================== *)

Lemma timed_out_iff (t : Z) (start : option Z) :
  Qle_bool (inject_Z TIMEOUT_SECONDS) (elapsed_seconds t start) = true <->
  (20000 <= t - default 0%Z start)%Z.
Proof.
  rewrite Qle_bool_iff. unfold elapsed_seconds, TIMEOUT_SECONDS.
  unfold Qle, Qdiv, Qmult, Qinv, inject_Z. simpl. lia.
Qed.

Lemma not_timed_out_iff (t : Z) (start : option Z) :
  Qle_bool (inject_Z TIMEOUT_SECONDS) (elapsed_seconds t start) = false <->
  (t - default 0%Z start < 20000)%Z.
Proof.
  rewrite <- not_true_iff_false, timed_out_iff. lia.
Qed.

Section GateFacts.

Variable now : nat -> Z.

Lemma gate_good (w : World) :
  gate now "good_quality" w =
  set_poorQualityStartTime None
    (with_dom (fun d => mkDom (overlay_textContent d) "none" "Take Picture" false)
       w).
Proof. reflexivity. Qed.

(** The first frame of a streak reads the clock twice. *)
Lemma gate_poor_first (label : string) (w : World) :
  label <> "good_quality" ->
  poorQualityStartTime w = None ->
  gate now label w =
  set_clock_reads (S (S (clock_reads w)))
    (set_poorQualityStartTime (Some (now (clock_reads w)))
       (with_dom
          (fun _ => poor_dom label (now (S (clock_reads w))) (now (clock_reads w)))
          w)).
Proof.
  intros Hl Hs. unfold gate, updateUI.
  destruct (decide (Some label = Some "good_quality")) as [[=]|_]; [done|].
  destruct w as [d ml ip st cr oa mp om rq ef]. simpl in Hs. subst st.
  unfold poor_dom. simpl.
  by destruct (Qle_bool _ _).
Qed.

(** A later frame of the streak reads it once. *)
Lemma gate_poor_next (label : string) (w : World) (t0 : Z) :
  label <> "good_quality" ->
  poorQualityStartTime w = Some t0 ->
  gate now label w =
  set_clock_reads (S (clock_reads w))
    (with_dom (fun _ => poor_dom label (now (clock_reads w)) t0) w).
Proof.
  intros Hl Hs. unfold gate, updateUI.
  destruct (decide (Some label = Some "good_quality")) as [[=]|_]; [done|].
  destruct w as [d ml ip st cr oa mp om rq ef]. simpl in Hs. subst st.
  unfold poor_dom. simpl.
  by destruct (Qle_bool _ _).
Qed.



End GateFacts.

Lemma poor_dom_within_grace (label : string) (t t0 : Z) :
  (t - t0 < 20000)%Z ->
  poor_dom label t t0 = mkDom (poor_message label) "block" "Take Anyway" true.
Proof.
  intros H. unfold poor_dom.
  by rewrite (proj2 (not_timed_out_iff t (Some t0)) H).
Qed.



(* ===================================================================== *)
(** ** The gate: a streak of poor frames *)
(* ===================================================================== *)

Section Streak.

Variable now : nat -> Z.


End Streak.



(* ===================================================================== *)
(** ** The loop: one iteration *)
(* ===================================================================== *)

Section LoopFacts.

Variable now : nat -> Z.

Lemma updateUI_defined (label : string) (w : World) :
  updateUI now (Some label) w = Ok (gate now label w).
Proof.
  unfold gate, updateUI.
  destruct (decide (Some label = Some "good_quality")); [done|].
  destruct (poorQualityStartTime _); simpl; by destruct (Qle_bool _ _).
Qed.

Lemma updateUI_undefined (w : World) :
  updateUI now None w = Throw "TypeError".
Proof. reflexivity. Qed.

(** The [try] block throws exactly when no label reaches [updateUI]. *)
Lemma try_block_throws (r : Inference) (w : World) :
  (exists e, try_block now r w = Throw e) <-> label_of r = None.
Proof.
  destruct r as [e|output]; simpl.
  - split; eauto.
  - destruct (labels !! argmax output) as [l|].
    + rewrite updateUI_defined. split; [intros [e [=]]|done].
    + split; eauto.
Qed.

Lemma runInference_labelled (r : Inference) (l : string) (w : World) :
  label_of r = Some l ->
  runInference now r w = finish (gate now l w).
Proof.
  intros Hl. unfold runInference. destruct r as [e|output]; [done|].
  simpl in *. by rewrite Hl, updateUI_defined.
Qed.

Lemma runInference_failed (r : Inference) (w : World) :
  label_of r = None ->
  runInference now r w = finish (emit (ConsoleError "Prediction failed:") w).
Proof.
  intros Hl. unfold runInference. destruct r as [e|output]; [done|].
  simpl in *. by rewrite Hl.
Qed.

Lemma gate_state_finish (w : World) : gate_state (finish w) = gate_state w.
Proof. reflexivity. Qed.

Lemma gate_state_emit (e : Effect) (w : World) :
  gate_state (emit e w) = gate_state w.
Proof. reflexivity. Qed.

(** The gate looks at nothing but the gate state. *)
Lemma gate_state_gate (l : string) (w1 w2 : World) :
  gate_state w1 = gate_state w2 ->
  gate_state (gate now l w1) = gate_state (gate now l w2).
Proof.
  destruct w1, w2. unfold gate_state. simpl. intros [= -> -> ->].
  unfold gate, updateUI.
  destruct (decide (Some l = Some "good_quality")); [done|].
  simpl. destruct poorQualityStartTime1; simpl; by destruct (Qle_bool _ _).
Qed.

Lemma gate_state_runInference (r : Inference) (w1 w2 : World) :
  gate_state w1 = gate_state w2 ->
  gate_state (runInference now r w1) = gate_state (runInference now r w2).
Proof.
  intros H. destruct (label_of r) as [l|] eqn:Hl.
  - rewrite !(runInference_labelled r l) by done.
    rewrite !gate_state_finish. by apply gate_state_gate.
  - rewrite !runInference_failed by done.
    by rewrite !gate_state_finish, !gate_state_emit.
Qed.

Lemma gate_state_frames (rs : list Inference) (w1 w2 : World) :
  gate_state w1 = gate_state w2 ->
  gate_state (frames now rs w1) = gate_state (frames now rs w2).
Proof.
  revert w1 w2. induction rs as [|r rs IH]; intros w1 w2 H; [done|].
  simpl. apply IH. by apply gate_state_runInference.
Qed.

Lemma frames_snoc (rs : list Inference) (r : Inference) (w : World) :
  frames now (rs ++ [r]) w = runInference now r (frames now rs w).
Proof. unfold frames. by rewrite foldl_app. Qed.

Lemma timer_after_gate (l : string) (w : World) :
  is_Some (poorQualityStartTime (gate now l w)) <-> l <> "good_quality".
Proof.
  destruct (decide (l = "good_quality")) as [->|Hl].
  - rewrite gate_good. simpl. split; [intros [? [=]]|done].
  - split; [done|]. intros _.
    destruct (poorQualityStartTime w) as [t0|] eqn:Hs.
    + rewrite (gate_poor_next now l w t0) by done. simpl. rewrite Hs. eauto.
    + rewrite gate_poor_first by done. simpl. eauto.
Qed.

(** After any frames from page load the timer is set exactly when the last
    frame that got a label was not good. *)
Lemma timer_after_frames (d : Dom) (rs : list Inference) :
  is_Some (poorQualityStartTime (frames now rs (boot d))) <->
  exists l, last (omap label_of rs) = Some l /\ l <> "good_quality".
Proof.
  induction rs as [|r rs IH] using rev_ind.
  - simpl. split; [intros [? [=]]|intros (l & [=] & _)].
  - rewrite frames_snoc, omap_app. simpl omap.
    destruct (label_of r) as [l|] eqn:Hl.
    + rewrite (runInference_labelled r l) by done.
      change (poorQualityStartTime (finish ?w)) with (poorQualityStartTime w).
      rewrite timer_after_gate, last_snoc.
      split; [eauto|]. by intros (l' & [= <-] & Hne).
    + rewrite runInference_failed by done.
      simpl. by rewrite app_nil_r.
Qed.

End LoopFacts.

(** C3: whatever the gate state, after a frame the poor-quality timestamp is
    set exactly when the frame's label is not [good_quality], and after any
    run of frames from page load exactly when the last frame that got a label
    was not good, that is, when a streak of poor frames is going on; one good
    frame clears the timestamp, enables the capture button, hides the overlay
    and restores the default button text. *)
Theorem timer_set_iff_streak_ongoing (now : nat -> Z) :
  (forall (w : World) (l : string),
     is_Some (poorQualityStartTime (gate now l w)) <-> l <> "good_quality") /\
  (forall (d : Dom) (rs : list Inference),
     is_Some (poorQualityStartTime (frames now rs (boot d))) <->
     exists l, last (omap label_of rs) = Some l /\ l <> "good_quality") /\
  (forall w : World,
     let w' := gate now "good_quality" w in
     poorQualityStartTime w' = None /\
     button_disabled (dom w') = false /\
     overlay_display (dom w') = "none" /\
     button_textContent (dom w') = "Take Picture").
Proof.
  split; [intros w l; apply timer_after_gate|].
  split; [apply timer_after_frames|].
  intros w. by rewrite gate_good.
Qed.



(** C5: when the [try] block of an iteration throws, the iteration leaves
    the overlay, the button, the poor-quality timestamp and the flags as they
    were, logs the failure, and queues the next iteration: the next animation
    frame runs [runInference] again, and the frames that follow gate exactly
    as if the failed frame had not been there. *)
Theorem failed_iteration_skips_frame
    (now : nat -> Z) (r : Inference) (w : World) (e : string) :
  try_block now r w = Throw e ->
  let w' := runInference now r w in
  dom w' = dom w /\
  poorQualityStartTime w' = poorQualityStartTime w /\
  modelLoaded w' = modelLoaded w /\
  isPredicting w' = isPredicting w /\
  effects w' =
    effects w ++
    [ConsoleError "Prediction failed:"; TfDispose; RequestAnimationFrame] /\
  raf_queue w' = S (raf_queue w) /\
  (forall r2,
     handle now (AnimationFrame r2) w' =
     runInference now r2 (set_raf_queue (raf_queue w) w')) /\
  (forall rs,
     gate_state (frames now (r :: rs) w) = gate_state (frames now rs w)).
Proof.
  intros Hthrow. cbn zeta.
  assert (label_of r = None) as Hl by (apply (try_block_throws now r w); eauto).
  rewrite (runInference_failed now r w Hl).
  repeat (split; [simpl; by rewrite <- ?app_assoc|]).
  intros rs. simpl. rewrite (runInference_failed now r w Hl).
  by apply gate_state_frames.
Qed.

Lemma failed_iteration_skips_frame_witness :
  let w :=
    set_poorQualityStartTime (Some 0%Z)
      (boot (mkDom "" "block" "Take Anyway" true)) in
  let w' := runInference seconds_clock (Rejected "backend error") w in
  dom w' = dom w /\
  poorQualityStartTime w' = Some 0%Z /\
  raf_queue w' = 1 /\
  gate_state (frames seconds_clock [Rejected "backend error"; Scores tie_scores] w) =
  gate_state (frames seconds_clock [Scores tie_scores] w).
Proof.
  intros w w'.
  destruct (failed_iteration_skips_frame seconds_clock
              (Rejected "backend error") w "backend error" eq_refl)
    as (Hdom & Htimer & _ & _ & _ & Hq & _ & Hnext).
  split; [exact Hdom|]. split; [exact Htimer|]. split; [exact Hq|].
  exact (Hnext [Scores tie_scores]).
Defined.

(** C9: on an empty score array [argmax] returns 0, so an empty model
    output gets the label at index 0, [good_quality], and the iteration
    enables the capture button as for a good frame. *)
Theorem empty_output_counts_as_good (now : nat -> Z) (w : World) :
  argmax [] = 0 /\
  label_of (Scores []) = Some "good_quality" /\
  try_block now (Scores []) w = Ok (gate now "good_quality" w) /\
  let w' := runInference now (Scores []) w in
  button_disabled (dom w') = false /\
  button_textContent (dom w') = "Take Picture" /\
  overlay_display (dom w') = "none" /\
  poorQualityStartTime w' = None.
Proof.
  split; [done|]. split; [done|]. split; [done|].
  cbn zeta. by rewrite (runInference_labelled now _ "good_quality").
Qed.

(* ===================================================================== *)
(** ** Start-up *)
(* ===================================================================== *)

Section Lifecycle.

Variable now : nat -> Z.

Lemma handle_halted (ev : Event) (w : World) :
  halted w -> handle now ev w = w.
Proof.
  intros (Ha & Hm & Ho & Hq). destruct ev; simpl.
  - by rewrite Ha.
  - by rewrite Hm.
  - by rewrite Ho.
  - by rewrite Hq.
Qed.

Lemma handle_all_halted (evs : list Event) (w : World) :
  halted w -> handle_all now evs w = w.
Proof.
  intros H. induction evs as [|ev evs IH]; [done|].
  unfold handle_all in *. simpl. by rewrite handle_halted.
Qed.

Lemma runInference_flags (r : Inference) (w : World) :
  let w' := runInference now r w in
  raf_queue w' = S (raf_queue w) /\
  isPredicting w' = isPredicting w /\
  modelLoaded w' = modelLoaded w.
Proof.
  cbn zeta. destruct (label_of r) as [l|] eqn:Hl.
  - rewrite (runInference_labelled now r l) by done.
    destruct (decide (l = "good_quality")) as [->|Hne].
    + by rewrite gate_good.
    + destruct (poorQualityStartTime w) as [t0|] eqn:Hs.
      * by rewrite (gate_poor_next now l w t0).
      * by rewrite gate_poor_first.
  - by rewrite runInference_failed.
Qed.

Lemma startPredictionLoop_guarded (r : Inference) (w : World) :
  modelLoaded w = false \/ isPredicting w = true ->
  startPredictionLoop now r w = w.
Proof.
  intros [H|H]; unfold startPredictionLoop; rewrite H; [done|].
  by rewrite orb_true_r.
Qed.

Lemma one_loop_handle (ev : Event) (w : World) :
  one_loop w -> one_loop (handle now ev w).
Proof.
  intros H. pose proof H as [Hq Hp].
  destruct ev as [loaded hasMedia|granted|r|r]; simpl.
  - destruct (onload_armed w); [|done].
    unfold initializeModel, startWebcam.
    destruct loaded; [destruct hasMedia|]; done.
  - destruct (media_pending w); [|done].
    unfold media_settled. by destruct granted.
  - destruct (onloadedmetadata w); [|done].
    unfold loaded_metadata, startPredictionLoop.
    change (modelLoaded (emit VideoPlay w)) with (modelLoaded w).
    change (isPredicting (emit VideoPlay w)) with (isPredicting w).
    destruct (modelLoaded w); [|done].
    destruct (isPredicting w) eqn:Hip; [done|]. simpl.
    destruct (runInference_flags r (set_isPredicting true (emit VideoPlay w)))
      as (Hq' & Hp' & _).
    split.
    + rewrite Hq'. simpl. rewrite Hp; [lia|done].
    + by rewrite Hp'.
  - destruct (raf_queue w) as [|n] eqn:Hn; [split; [lia|done]|].
    destruct (runInference_flags r (set_raf_queue n w)) as (Hq' & Hp' & _).
    split.
    + rewrite Hq'. simpl. lia.
    + rewrite Hp'. simpl. intros Hip. specialize (Hp Hip). lia.
Qed.

Lemma one_loop_handle_all (evs : list Event) (w : World) :
  one_loop w -> one_loop (handle_all now evs w).
Proof.
  revert w. induction evs as [|ev evs IH]; intros w H; [done|].
  apply (IH (handle now ev w)). by apply one_loop_handle.
Qed.

End Lifecycle.

(** C6: when loading the model fails the overlay shows the fatal message
    and the page stops there: whatever happens afterwards, the camera is
    never requested, the video never played, no iteration of the prediction
    loop is run or queued, and the flags stay unset. *)
Theorem model_load_failure_halts
    (now : nat -> Z) (d : Dom) (hasMedia : bool) (evs : list Event) :
  let w := handle_all now (WindowLoad false hasMedia :: evs) (boot d) in
  overlay_textContent (dom w) = "Error loading model. Check console." /\
  overlay_display (dom w) = "block" /\
  effects w =
    [LoadModel "efficientnet_quality_model.onnx";
     ConsoleError "Failed to load model:"] /\
  (GetUserMedia ∉ effects w) /\
  (VideoPlay ∉ effects w) /\
  (RequestAnimationFrame ∉ effects w) /\
  raf_queue w = 0 /\
  isPredicting w = false /\
  modelLoaded w = false.
Proof.
  cbn zeta.
  change (handle_all now (WindowLoad false hasMedia :: evs) (boot d))
    with (handle_all now evs (handle now (WindowLoad false hasMedia) (boot d))).
  rewrite handle_all_halted by done. simpl.
  repeat split; try done;
    intros Hin; rewrite !elem_of_cons, elem_of_nil in Hin;
    destruct Hin as [Hin|[Hin|[]]]; discriminate Hin.
Qed.

(** C8: [startPredictionLoop] called before the model is loaded, or while a
    loop is running, returns at once and changes nothing; and from page load
    on, whatever the events, at most one [runInference] callback is ever
    queued, and none while [isPredicting] is unset. *)
Theorem at_most_one_prediction_loop (now : nat -> Z) :
  (forall (r : Inference) (w : World),
     modelLoaded w = false \/ isPredicting w = true ->
     startPredictionLoop now r w = w) /\
  (forall (d : Dom) (evs : list Event),
     let w := handle_all now evs (boot d) in
     raf_queue w <= 1 /\ (isPredicting w = false -> raf_queue w = 0)).
Proof.
  split; [apply startPredictionLoop_guarded|].
  intros d evs. apply one_loop_handle_all. split; [simpl; lia|done].
Qed.

(** The page of C8 at work: the model loads, the camera is granted, and the
    video fires [loadedmetadata] twice; the second call of
    [startPredictionLoop] finds [isPredicting] set and starts nothing. *)
Lemma at_most_one_prediction_loop_witness :
  let evs :=
    [WindowLoad true true; MediaSettled true;
     LoadedMetadata (Scores tie_scores)] in
  let w := handle_all seconds_clock evs (boot (mkDom "" "none" "Take Picture" false)) in
  isPredicting w = true /\
  startPredictionLoop seconds_clock (Scores tie_scores) w = w /\
  raf_queue (handle seconds_clock (LoadedMetadata (Scores tie_scores)) w) = 1.
Proof.
  intros evs w.
  destruct (at_most_one_prediction_loop seconds_clock) as [Hguard Hone].
  split; [reflexivity|]. split.
  - apply Hguard. right. reflexivity.
  - vm_compute. reflexivity.
Defined.

(* ===================================================================== *)
(** ** Buffers filled block by block *)
(* ===================================================================== *)

(** Element [j] of block [i] of a buffer made of blocks of [k] elements. *)
Lemma lookup_bind_seq {A} (g : nat -> list A) (k : nat) :
  (forall x, length (g x) = k) ->
  forall n s i j,
    i < n -> j < k -> (seq s n ≫= g) !! (i * k + j) = g (s + i) !! j.
Proof.
  intros Hlen. induction n as [|n IH]; intros s i j Hi Hj; [lia|].
  simpl seq. rewrite bind_cons. destruct i as [|i].
  - rewrite lookup_app_l by (rewrite Hlen; lia).
    by rewrite Nat.add_0_r.
  - rewrite lookup_app_r by (rewrite Hlen; lia).
    rewrite Hlen.
    replace (S i * k + j - k) with (i * k + j) by lia.
    rewrite IH by lia. f_equal. f_equal. lia.
Qed.

Lemma length_bind_seq {A} (g : nat -> list A) (k : nat) :
  (forall x, length (g x) = k) ->
  forall n s, length (seq s n ≫= g) = n * k.
Proof.
  intros Hlen. induction n as [|n IH]; intros s; [done|].
  simpl seq. rewrite bind_cons, length_app, Hlen, IH. lia.
Qed.

(** A loop that overwrites a zeroed buffer [k] cells at a time, from the
    cursor on, has written the blocks one after the other. *)
Lemma foldl_fill {A} (f : list number * nat -> A -> list number * nat)
    (g : A -> list number) (k : nat) (z : number) :
  (forall x, length (g x) = k) ->
  (forall pre rest x,
     f (pre ++ replicate k z ++ rest, length pre) x =
     (pre ++ g x ++ rest, length pre + k)) ->
  forall xs pre rest,
    foldl f (pre ++ replicate (k * length xs) z ++ rest, length pre) xs =
    (pre ++ (xs ≫= g) ++ rest, length pre + k * length xs).
Proof.
  intros Hlen Hstep. induction xs as [|x xs IH]; intros pre rest.
  - simpl. by rewrite Nat.mul_0_r, Nat.add_0_r.
  - simpl foldl. simpl length.
    replace (k * S (length xs)) with (k + k * length xs) by lia.
    rewrite replicate_add, <- (app_assoc (replicate k z)), Hstep.
    replace (length pre + k) with (length (pre ++ g x))
      by (rewrite length_app, Hlen; lia).
    rewrite (app_assoc pre (g x)), IH.
    rewrite bind_cons, <- !app_assoc, length_app, Hlen. f_equal. lia.
Qed.

(* ===================================================================== *)
(** ** [preprocess] *)
(* ===================================================================== *)

Lemma store_at_cursor (pre rest : list number) (old v : number) :
  store (pre ++ old :: rest, length pre) v =
  ((pre ++ [fround v]) ++ rest, length (pre ++ [fround v])).
Proof.
  unfold store. simpl. rewrite length_app. simpl.
  rewrite <- app_assoc. simpl.
  replace (length pre) with (length pre + 0) at 1 by lia.
  rewrite insert_app_r. simpl. f_equal. lia.
Qed.

Lemma preprocess_pixel_fill (img : ImageData) (h : nat)
    (pre rest : list number) (w : nat) :
  preprocess_pixel img h (pre ++ replicate 3 (of_Z 0) ++ rest, length pre) w =
  (pre ++ pixel_values img h w ++ rest, length pre + 3).
Proof.
  unfold preprocess_pixel. simpl replicate. simpl app.
  rewrite !store_at_cursor. rewrite !length_app. simpl.
  rewrite <- !app_assoc. simpl. f_equal. lia.
Qed.

Lemma preprocess_row_fill (img : ImageData) (pre rest : list number) (h : nat) :
  preprocess_row img (pre ++ replicate (3 * width img) (of_Z 0) ++ rest,
                      length pre) h =
  (pre ++ (seq 0 (width img) ≫= pixel_values img h) ++ rest,
   length pre + 3 * width img).
Proof.
  unfold preprocess_row.
  pose proof (foldl_fill (preprocess_pixel img h) (pixel_values img h) 3
                (of_Z 0)) as Hfill.
  specialize (Hfill ltac:(done)).
  specialize (Hfill ltac:(intros; apply preprocess_pixel_fill)).
  specialize (Hfill (seq 0 (width img)) pre rest).
  by rewrite length_seq in Hfill.
Qed.

(** The buffer that [preprocess] returns, as one expression: pixel after
    pixel, the three channels of a pixel side by side. *)
Lemma preprocess_data (img : ImageData) :
  tensor_data (preprocess img) =
  (h ← seq 0 (height img); w ← seq 0 (width img); pixel_values img h w).
Proof.
  unfold preprocess, tensor_data.
  assert (forall h,
            length (seq 0 (width img) ≫= pixel_values img h) = 3 * width img)
    as Hrow by (intros h; rewrite (length_bind_seq _ 3); [lia|done]).
  pose proof (foldl_fill (preprocess_row img)
                (fun h => seq 0 (width img) ≫= pixel_values img h)
                (3 * width img) (of_Z 0) Hrow
                (fun pre rest h => preprocess_row_fill img pre rest h)
                (seq 0 (height img)) [] []) as Hfill.
  rewrite length_seq, !app_nil_r in Hfill.
  change (length (@nil number)) with 0 in Hfill.
  change ([] ++ ?l) with l in Hfill.
  by rewrite Hfill.
Qed.

(** [preprocess] leaves the data interleaved: channel [c] of pixel [(h, w)]
    is stored at [(h * W + w) * 3 + c]. *)
Lemma preprocess_interleaved (img : ImageData) (c h w : nat) :
  c < 3 -> h < height img -> w < width img ->
  tensor_data (preprocess img) !! interleaved_index (width img) c h w =
  Some (fround (normalize c
          (data_get (data img) ((h * width img + w) * 4 + c)))).
Proof.
  intros Hc Hh Hw. rewrite preprocess_data. unfold interleaved_index.
  replace ((h * width img + w) * 3 + c)
    with (h * (3 * width img) + (w * 3 + c)) by lia.
  rewrite (lookup_bind_seq _ (3 * width img));
    [|intros x; rewrite (length_bind_seq _ 3); [lia|done]|done|lia].
  rewrite (lookup_bind_seq _ 3); [|done|done|done].
  simpl. destruct c as [|[|[|c]]]; [done|done|done|lia].
Qed.

Lemma preprocess_dims (img : ImageData) :
  tensor_dims (preprocess img) = [1; 3; height img; width img] /\
  length (tensor_data (preprocess img)) = 3 * height img * width img.
Proof.
  split; [done|]. rewrite preprocess_data.
  rewrite (length_bind_seq _ (3 * width img)); [lia|].
  intros h. rewrite (length_bind_seq _ 3); [lia|done].
Qed.

(** The channel-first buffer of the specification. *)
Lemma preprocess_planar_lookup (img : ImageData) (c h w : nat) :
  c < 3 -> h < height img -> w < width img ->
  tensor_data (preprocess_planar img)
    !! planar_index (height img) (width img) c h w =
  Some (fround (normalize c
          (data_get (data img) ((h * width img + w) * 4 + c)))).
Proof.
  intros Hc Hh Hw. unfold preprocess_planar, planar_index, tensor_data.
  cbv zeta.
  replace (c * (height img * width img) + h * width img + w)
    with (c * (height img * width img) + (h * width img + w)) by lia.
  rewrite (lookup_bind_seq _ (height img * width img)); [| |done|nia].
  - rewrite (lookup_bind_seq _ (width img)); [|intros; 
      by rewrite (length_bind_seq _ 1), Nat.mul_1_r|done|done].
    replace w with (w * 1 + 0) at 1 by lia.
    rewrite (lookup_bind_seq _ 1); [reflexivity|done|done|lia].
  - intros x. rewrite (length_bind_seq _ (width img)); [done|].
    intros y. by rewrite (length_bind_seq _ 1), Nat.mul_1_r.
Qed.

Lemma uniform_frame_data (W H : nat) (r g b : Z) (c h w : nat) :
  c < 3 -> h < H -> w < W ->
  data_get (data (uniform_frame W H r g b)) ((h * W + w) * 4 + c) =
  of_Z (default 0%Z ([r; g; b] !! c)).
Proof.
  intros Hc Hh Hw. unfold data_get, uniform_frame. simpl data.
  rewrite (lookup_bind_seq _ 4); [|done|nia|lia].
  destruct c as [|[|[|c]]]; [done|done|done|lia].
Qed.

Lemma preprocess_uniform (W H : nat) (r g b : Z) (c h w : nat) :
  c < 3 -> h < H -> w < W ->
  tensor_data (preprocess (uniform_frame W H r g b))
    !! interleaved_index W c h w =
  Some (fround (normalize c (of_Z (default 0%Z ([r; g; b] !! c))))).
Proof.
  intros Hc Hh Hw.
  rewrite <- (uniform_frame_data W H r g b c h w) by done.
  by apply (preprocess_interleaved (uniform_frame W H r g b)).
Qed.

Lemma preprocess_planar_uniform (W H : nat) (r g b : Z) (c h w : nat) :
  c < 3 -> h < H -> w < W ->
  tensor_data (preprocess_planar (uniform_frame W H r g b))
    !! planar_index H W c h w =
  Some (fround (normalize c (of_Z (default 0%Z ([r; g; b] !! c))))).
Proof.
  intros Hc Hh Hw.
  rewrite <- (uniform_frame_data W H r g b c h w) by done.
  by apply (preprocess_planar_lookup (uniform_frame W H r g b)).
Qed.

(** C2, on the hand-written [preprocess]: the values are scaled, centred
    and divided as stated and the tensor is declared [[1; 3; H; W]], but the
    data are not reordered: channel [c] of pixel [(h, w)] stays at the
    interleaved index.  On a uniform red 224 x 224 frame the cell that the
    declared dimensions give to red, row 0, column 1 holds the normalised
    green of pixel [(0, 0)], where the channel-first tensor of the
    specification holds the normalised red of pixel [(0, 1)]. *)
Theorem preprocess_leaves_data_interleaved :
  (forall (img : ImageData) (c h w : nat),
     c < 3 -> h < height img -> w < width img ->
     tensor_dims (preprocess img) = [1; 3; height img; width img] /\
     tensor_data (preprocess img) !! interleaved_index (width img) c h w =
     Some (fround (normalize c
             (data_get (data img) ((h * width img + w) * 4 + c))))) /\
  tensor_dims (preprocess red_frame) = [1; 3; 224; 224] /\
  tensor_data (preprocess red_frame) !! planar_index 224 224 0 0 1 =
    Some (fround (normalize 1 (of_Z 0))) /\
  tensor_data (preprocess_planar red_frame) !! planar_index 224 224 0 0 1 =
    Some (fround (normalize 0 (of_Z 255))) /\
  fround (normalize 1 (of_Z 0)) <> fround (normalize 0 (of_Z 255)) /\
  preprocess red_frame <> preprocess_planar red_frame.
Proof.
  assert (tensor_data (preprocess red_frame) !! planar_index 224 224 0 0 1 =
          Some (fround (normalize 1 (of_Z 0)))) as Hcode.
  { change (planar_index 224 224 0 0 1) with (interleaved_index 224 1 0 0).
    apply (preprocess_uniform 224 224 255 0 0 1 0 0); lia. }
  assert (tensor_data (preprocess_planar red_frame)
            !! planar_index 224 224 0 0 1 =
          Some (fround (normalize 0 (of_Z 255)))) as Hspec.
  { apply (preprocess_planar_uniform 224 224 255 0 0 0 0 1); lia. }
  assert (fround (normalize 1 (of_Z 0)) <> fround (normalize 0 (of_Z 255)))
    as Hne by (vm_compute; discriminate).
  split.
  { intros img c h w Hc Hh Hw. split; [done|].
    by apply preprocess_interleaved. }
  split; [done|]. split; [exact Hcode|]. split; [exact Hspec|].
  split; [exact Hne|].
  intros Heq. apply Hne, (inj Some).
  rewrite <- Hcode, <- Hspec.
  exact (f_equal (fun t => tensor_data t !! planar_index 224 224 0 0 1) Heq).
Qed.

Lemma preprocess_gray (c h w : nat) :
  c < 3 -> h < 224 -> w < 224 ->
  tensor_data (preprocess gray_frame) !! interleaved_index 224 c h w =
  Some (fround (normalize c (of_Z 128))).
Proof.
  intros Hc Hh Hw. unfold gray_frame.
  rewrite (preprocess_uniform 224 224 128 128 128 c h w Hc Hh Hw).
  destruct c as [|[|[|c]]]; [reflexivity|reflexivity|reflexivity|lia].
Qed.

(** The arithmetic of [preprocess] on a gray sample: binary64 operations and
    the final rounding to binary32 stay within 10^-6 of the exact value. *)
Lemma normalize_gray_accurate (c : nat) :
  c < 3 ->
  exists q,
    number_to_Q (fround (normalize c (of_Z 128))) = Some q /\
    within (1 # 1000000) q (gray_expected c).
Proof.
  intros Hc. destruct c as [|[|[|c]]]; [| | |lia];
    (eexists; split; [vm_compute; reflexivity|]);
    unfold within; apply Qle_bool_iff; vm_compute; reflexivity.
Qed.

(** C7, on the hand-written [preprocess]: on the uniform gray frame the
    value stored for channel [c] of a pixel is within 10^-6 of
    [(128/255 - mean[c]) / std[c]], but it sits at the interleaved index; in
    the tensor as declared, [[1; 3; 224; 224]], the cell of channel 0, row 0,
    column 1 holds the value of channel 1, more than 0.1 away from the value
    of channel 0. *)
Theorem preprocess_gray_mixes_channels :
  tensor_dims (preprocess gray_frame) = [1; 3; 224; 224] /\
  (forall c h w : nat,
     c < 3 -> h < 224 -> w < 224 ->
     exists v q,
       tensor_data (preprocess gray_frame) !! interleaved_index 224 c h w =
         Some v /\
       number_to_Q v = Some q /\
       within (1 # 1000000) q (gray_expected c)) /\
  (exists v q,
     tensor_data (preprocess gray_frame) !! planar_index 224 224 0 0 1 =
       Some v /\
     number_to_Q v = Some q /\
     ~ within (1 # 10) q (gray_expected 0)).
Proof.
  split; [reflexivity|]. split.
  - intros c h w Hc Hh Hw.
    destruct (normalize_gray_accurate c Hc) as (q & Hq & Hclose).
    exists (fround (normalize c (of_Z 128))), q.
    split; [by apply preprocess_gray|]. by split.
  - exists (fround (normalize 1 (of_Z 128))). eexists. split.
    + change (planar_index 224 224 0 0 1) with (interleaved_index 224 1 0 0).
      apply preprocess_gray; lia.
    + split; [vm_compute; reflexivity|].
      unfold within. rewrite <- Qle_bool_iff. vm_compute. discriminate.
Qed.

(* ===================================================================== *)
(** ** The tensor pipeline of the timed [runInference] *)
(* ===================================================================== *)

Section TfFacts.

Variables kdiv ksub : number -> number -> number.

Lemma broadcast_lookup (op : number -> number -> number)
    (a b : Tf.tensor) (i : nat) (x : number) :
  Tf.values a !! i = Some x ->
  Tf.values (Tf.broadcast op a b) !! i =
  Some (op x (num_get (Tf.values b) (i mod length (Tf.values b)))).
Proof.
  intros Hx. unfold Tf.broadcast. simpl Tf.values.
  by rewrite list_lookup_imap, Hx.
Qed.

Lemma transpose_0312_lookup (t : Tf.tensor) (H W C k h w : nat) :
  Tf.shape t = [1; H; W; C] ->
  k < C -> h < H -> w < W ->
  Tf.values (Tf.transpose_0312 t) !! (k * (H * W) + h * W + w) =
  Some (num_get (Tf.values t) ((h * W + w) * C + k)).
Proof.
  intros Hshape Hk Hh Hw. unfold Tf.transpose_0312. rewrite Hshape.
  cbv beta iota. unfold Tf.values at 1.
  assert (forall b x : nat,
            length (seq 0 (H * W) ≫= fun p =>
                      [num_get (Tf.values t) ((b * (H * W) + p) * C + x)]) =
            H * W) as Hinner
    by (intros b x; by rewrite (length_bind_seq _ 1), Nat.mul_1_r).
  assert (h * W + w < H * W) as Hp
    by (pose proof (Nat.mul_le_mono_r (S h) H W ltac:(lia)); lia).
  assert (k * (H * W) + (h * W + w) < C * (H * W)) as Hkp
    by (pose proof (Nat.mul_le_mono_r (S k) C (H * W) ltac:(lia)); lia).
  replace (k * (H * W) + h * W + w)
    with (0 * (C * (H * W)) + (k * (H * W) + (h * W + w))) by lia.
  rewrite (lookup_bind_seq _ (C * (H * W))); [| |lia|done].
  - rewrite (lookup_bind_seq _ (H * W)); [|apply Hinner|done|done].
    replace (h * W + w) with ((h * W + w) * 1 + 0) at 1 by lia.
    rewrite (lookup_bind_seq _ 1); [|done|done|lia].
    simpl. do 3 f_equal.
  - intros b. by rewrite (length_bind_seq _ (H * W)).
Qed.

(** The pipeline of the timed loop does reorder: channel [c] of the resized
    pixel [(h, w)] ends up, normalised, at the channel-first index. *)
Lemma input_tensor_lookup (resized : Tf.tensor) (H W c h w : nat)
    (x : number) :
  Tf.shape resized = [H; W; 3] ->
  c < 3 -> h < H -> w < W ->
  Tf.values resized !! interleaved_index W c h w = Some x ->
  tensor_data (Tf.input_tensor kdiv ksub resized) !! planar_index H W c h w =
  Some (Tf.normalize32 kdiv ksub c x).
Proof.
  intros Hshape Hc Hh Hw Hx.
  unfold Tf.input_tensor, planar_index, interleaved_index, tensor_data in *.
  cbv zeta.
  rewrite (transpose_0312_lookup _ H W 3); [|by rewrite <- Hshape|done..].
  f_equal. unfold num_get at 1.
  change (Tf.values (Tf.expandDims ?t)) with (Tf.values t).
  unfold Tf.div, Tf.sub.
  pose proof (broadcast_lookup kdiv resized (Tf.scalar (of_Z 255)) _ _ Hx)
    as H1.
  pose proof (broadcast_lookup ksub _ (Tf.tensor1d mean) _ _ H1) as H2.
  pose proof (broadcast_lookup kdiv _ (Tf.tensor1d std) _ _ H2) as H3.
  rewrite H3. unfold Tf.normalize32.
  change (length (Tf.values (Tf.scalar (of_Z 255)))) with 1.
  change (length (Tf.values (Tf.tensor1d mean))) with 3.
  change (length (Tf.values (Tf.tensor1d std))) with 3.
  rewrite Nat.mod_1_r.
  replace (((h * W + w) * 3 + c) mod 3) with c.
  - reflexivity.
  - rewrite Nat.add_comm, Nat.Div0.mod_add. symmetry. by apply Nat.mod_small.
Qed.

Lemma input_tensor_dims (resized : Tf.tensor) :
  tensor_dims (Tf.input_tensor kdiv ksub resized) = [1; 3; 224; 224].
Proof. reflexivity. Qed.

End TfFacts.


(* ===================================================================== *)
(** ** Scenarios *)
(* ===================================================================== *)

(** The comparison of [updateUI] in binary64 at the edge of the grace period:
    19.999 seconds is below the threshold, 20 seconds reaches it, as in
    [elapsed_seconds]. *)
Example timeout_edge_binary64 :
  SFleb (of_Z TIMEOUT_SECONDS) (js_div (of_Z 19999) (of_Z 1000)) = false /\
  SFleb (of_Z TIMEOUT_SECONDS) (js_div (of_Z 20000) (of_Z 1000)) = true /\
  Qle_bool (inject_Z TIMEOUT_SECONDS) (elapsed_seconds 19999 (Some 0%Z)) = false /\
  Qle_bool (inject_Z TIMEOUT_SECONDS) (elapsed_seconds 20000 (Some 0%Z)) = true.
Proof. repeat split; vm_compute; reflexivity. Qed.

(** [blurry, blurry, good_quality] at 0, 5 and 10 seconds: disabled,
    disabled, enabled. *)
Example scenario_blurry_blurry_good :
  let w0 := boot (mkDom "" "none" "Take Picture" false) in
  let w1 := gate scenario_clock "blurry" w0 in
  let w2 := gate scenario_clock "blurry" w1 in
  let w3 := gate scenario_clock "good_quality" w2 in
  button_disabled (dom w1) = true /\
  overlay_textContent (dom w1) = poor_message "blurry" /\
  button_disabled (dom w2) = true /\
  button_disabled (dom w3) = false /\
  poorQualityStartTime w3 = None.
Proof. repeat split; vm_compute; reflexivity. Qed.

(** A NaN in front wins every comparison by default; behind a number it is
    passed over. *)
Example argmax_with_nan :
  argmax [NaN; of_Z 1] = 0 /\ argmax [of_Z 1; NaN; of_Z 2] = 2.
Proof. split; vm_compute; reflexivity. Qed.

(** An output with more classes than labels: the fifth score wins, no label
    is found and the iteration fails in [updateUI] before any assignment. *)
Example label_past_the_end :
  label_of (Scores [of_Z 0; of_Z 0; of_Z 0; of_Z 0; of_Z 1]) = None.
Proof. vm_compute. reflexivity. Qed.

(* ===================================================================== *)
(** ** More on [argmax] *)
(* ===================================================================== *)

Lemma argmax_in_bounds (array : list number) :
  array <> [] -> argmax array < length array.
Proof.
  intros Hne. destruct (argmax_first_maximum array Hne) as (xm & Hm & _).
  by apply lookup_lt_Some in Hm.
Qed.

Lemma js_gt_not_nan (x y : number) : js_gt x y = true -> is_nan x = false.
Proof.
  unfold js_gt, SFltb, SFcompare. float_cases x; float_cases y; order_crush.
Qed.

(** The loop returns the index it started with or a later one whose element
    won a comparison, hence is a number. *)
Lemma argmax_loop_choice (array : list number) (iters : nat) :
  forall i max m,
    let r := argmax_loop array iters i max m in
    r = m \/
    (i <= r /\ exists x, array !! r = Some x /\ is_nan x = false).
Proof.
  induction iters as [|iters IH]; intros i max m; simpl; [by left|].
  destruct (value_gt (array_get array i) max) eqn:Hgt.
  - right. unfold array_get in Hgt at 1.
    destruct (array !! i) as [xi|] eqn:Hxi; [|done].
    assert (is_nan xi = false) as Hnan.
    { destruct max as [|y]; [done|]. by apply js_gt_not_nan with y. }
    destruct (IH (S i) (array_get array i) i) as [Hr|(Hle & x & Hx & Hn)].
    + rewrite Hr. split; [lia|]. by exists xi.
    + split; [lia|]. by exists x.
  - destruct (IH (S i) max m) as [Hr|(Hle & x & Hx & Hn)]; [by left|].
    right. split; [lia|]. by exists x.
Qed.

(** A NaN is never picked behind the first position: an index above 0 comes
    out of a won comparison, and NaN wins none. *)
Theorem argmax_never_returns_later_nan (array : list number) :
  0 < argmax array ->
  exists x, array !! argmax array = Some x /\ is_nan x = false.
Proof.
  intros Hpos. unfold argmax in *.
  destruct (argmax_loop_choice array (length array - 1) 1 (array_get array 0) 0)
    as [Hr|(_ & x & Hx & Hn)]; [lia|by exists x].
Qed.

Lemma argmax_never_returns_later_nan_witness :
  exists x, [of_Z 1; NaN; of_Z 2] !! argmax [of_Z 1; NaN; of_Z 2] = Some x /\
            is_nan x = false.
Proof.
  apply (argmax_never_returns_later_nan [of_Z 1; NaN; of_Z 2]).
  vm_compute. lia.
Defined.

Lemma argmax_loop_stuck (array : list number) (iters : nat) :
  forall i m, argmax_loop array iters i (Num NaN) m = m.
Proof.
  induction iters as [|iters IH]; intros i m; simpl; [done|].
  assert (value_gt (array_get array i) (Num NaN) = false) as ->; [|apply IH].
  destruct (array_get array i) as [|x]; [done|].
  simpl. unfold js_gt, SFltb, SFcompare. simpl. by destruct x.
Qed.

(** A NaN in the first position is returned whatever follows it: no score
    compares greater than NaN. *)
Theorem argmax_leading_nan (array : list number) :
  array !! 0 = Some NaN -> argmax array = 0.
Proof.
  intros H0. unfold argmax, array_get. rewrite H0. apply argmax_loop_stuck.
Qed.

Lemma argmax_leading_nan_witness : argmax [NaN; of_Z 1; of_Z 2] = 0.
Proof. apply (argmax_leading_nan [NaN; of_Z 1; of_Z 2]). reflexivity. Defined.

Lemma array_get_app_l (a : list number) (x : number) (i : nat) :
  i < length a -> array_get (a ++ [x]) i = array_get a i.
Proof. intros Hi. unfold array_get. by rewrite lookup_app_l. Qed.

Lemma array_get_app_end (a : list number) (x : number) :
  array_get (a ++ [x]) (length a) = Num x.
Proof.
  unfold array_get. rewrite lookup_app_r by lia.
  by rewrite Nat.sub_diag.
Qed.

Lemma argmax_loop_step (array : list number) (iters i : nat)
    (max : value) (m : nat) :
  argmax_loop array (S iters) i max m =
  if value_gt (array_get array i) max
  then argmax_loop array iters (S i) (array_get array i) i
  else argmax_loop array iters (S i) max m.
Proof. reflexivity. Qed.

Lemma argmax_loop_snoc (a : list number) (x : number) (iters : nat) :
  forall i m,
    i + iters = length a ->
    argmax_loop (a ++ [x]) (S iters) i (array_get a m) m =
    let r := argmax_loop a iters i (array_get a m) m in
    if value_gt (Num x) (array_get a r) then length a else r.
Proof.
  induction iters as [|iters IH]; intros i m Hlen.
  - simpl. assert (i = length a) as -> by lia.
    by rewrite array_get_app_end.
  - cbn zeta.
    rewrite (argmax_loop_step (a ++ [x]) (S iters)), (argmax_loop_step a iters).
    rewrite array_get_app_l by lia.
    destruct (value_gt (array_get a i) (array_get a m)).
    + apply (IH (S i) i). lia.
    + apply (IH (S i) m). lia.
Qed.

(** One more score at the end: it takes over exactly when it is greater than
    the score that won so far, and otherwise the answer stands. *)
Theorem argmax_snoc (a : list number) (x : number) :
  a <> [] ->
  argmax (a ++ [x]) =
  if value_gt (Num x) (array_get a (argmax a)) then length a else argmax a.
Proof.
  intros Hne. unfold argmax at 1. rewrite length_app. simpl length.
  replace (length a + 1 - 1) with (S (length a - 1))
    by (destruct a; [done|simpl; lia]).
  rewrite (array_get_app_l a x 0) by (destruct a; [done|simpl; lia]).
  rewrite (argmax_loop_snoc a x (length a - 1) 1 0); [done|].
  destruct a; [done|simpl; lia].
Qed.

Lemma argmax_snoc_witness :
  argmax (tie_scores ++ [of_Z 1]) = 4 /\ argmax (tie_scores ++ [of_Z 0]) = 0.
Proof.
  split.
  - rewrite (argmax_snoc tie_scores (of_Z 1)); [reflexivity|discriminate].
  - rewrite (argmax_snoc tie_scores (of_Z 0)); [reflexivity|discriminate].
Defined.

(** An output of at most four scores always gets one of the four labels, so
    [updateUI] is reached and the [try] block does not throw; a frame can
    only lose its label to an output longer than the label list. *)
Theorem four_scores_always_labelled (now : nat -> Z) (output : list number)
    (w : World) :
  length output <= 4 ->
  exists l,
    l ∈ labels /\
    label_of (Scores output) = Some l /\
    try_block now (Scores output) w = Ok (gate now l w).
Proof.
  intros Hlen.
  assert (argmax output < 4) as Hlt.
  { destruct output as [|x0 rest]; [unfold argmax; simpl; lia|].
    pose proof (argmax_in_bounds (x0 :: rest) ltac:(done)). lia. }
  destruct (lookup_lt_is_Some_2 labels (argmax output) Hlt) as [l Hl].
  exists l. split; [by eapply list_elem_of_lookup_2|]. split; [done|].
  simpl. rewrite Hl. apply updateUI_defined.
Qed.

Lemma four_scores_always_labelled_witness :
  exists l,
    l ∈ labels /\
    label_of (Scores tie_scores) = Some l /\
    try_block seconds_clock (Scores tie_scores)
      (boot (mkDom "" "none" "Take Picture" false)) =
    Ok (gate seconds_clock l (boot (mkDom "" "none" "Take Picture" false))).
Proof.
  apply (four_scores_always_labelled seconds_clock tie_scores).
  vm_compute. lia.
Defined.

(* ===================================================================== *)
(** ** More on [preprocess] *)
(* ===================================================================== *)

Lemma preprocess_unfold (img : ImageData) :
  preprocess img =
  mkTensor (h ← seq 0 (height img); w ← seq 0 (width img); pixel_values img h w)
    "float32" [1; 3; height img; width img].
Proof.
  rewrite <- preprocess_data. reflexivity.
Qed.

(** On a frame that is not empty the buffer has exactly as many cells as
    the declared dimensions ask for, and at least three, whatever the length
    of the frame's data. *)
Theorem preprocess_fills_declared_shape (img : ImageData) :
  0 < width img -> 0 < height img ->
  length (tensor_data (preprocess img)) =
    foldr Nat.mul 1 (tensor_dims (preprocess img)) /\
  3 <= length (tensor_data (preprocess img)).
Proof.
  intros HW HH. destruct (preprocess_dims img) as [-> ->]. simpl. nia.
Qed.

Lemma preprocess_fills_declared_shape_witness :
  length (tensor_data (preprocess (mkImageData [10; 20]%Z 2 1))) =
    foldr Nat.mul 1 (tensor_dims (preprocess (mkImageData [10; 20]%Z 2 1))) /\
  3 <= length (tensor_data (preprocess (mkImageData [10; 20]%Z 2 1))).
Proof.
  apply (preprocess_fills_declared_shape (mkImageData [10; 20]%Z 2 1));
    simpl; lia.
Defined.

Lemma pixel_values_same_colours (img img' : ImageData) (h w : nat) :
  same_colours img img' -> pixel_values img h w = pixel_values img' h w.
Proof.
  intros (HW & _ & Hdata). unfold pixel_values, data_get. rewrite <- HW.
  assert (forall c, c < 3 -> ((h * width img + w) * 4 + c) mod 4 <> 3) as Hmod.
  { intros c Hc. rewrite Nat.add_comm, Nat.Div0.mod_add.
    rewrite Nat.mod_small; lia. }
  by rewrite !Hdata by (apply Hmod; lia).
Qed.

(** [preprocess] never looks at the alpha bytes: frames of equal size that
    agree on the colour bytes give the same tensor. *)
Theorem preprocess_ignores_alpha (img img' : ImageData) :
  same_colours img img' -> preprocess img = preprocess img'.
Proof.
  intros Hsame. pose proof Hsame as (HW & HH & _).
  rewrite !preprocess_unfold, <- HW, <- HH. f_equal.
  apply list_bind_ext; [|done]. intros h.
  apply list_bind_ext; [|done]. intros w.
  by apply pixel_values_same_colours.
Qed.

Lemma preprocess_ignores_alpha_witness :
  preprocess (mkImageData [10; 20; 30; 255]%Z 1 1) =
  preprocess (mkImageData [10; 20; 30; 0]%Z 1 1).
Proof.
  apply (preprocess_ignores_alpha (mkImageData [10; 20; 30; 255]%Z 1 1)
           (mkImageData [10; 20; 30; 0]%Z 1 1)).
  split; [reflexivity|]. split; [reflexivity|].
  intros i Hi. destruct i as [|[|[|[|i]]]]; simpl; try reflexivity.
  exfalso. apply Hi. reflexivity.
Defined.

Lemma normalize_nan (c : nat) : c < 3 -> fround (normalize c NaN) = NaN.
Proof.
  intros Hc. destruct c as [|[|[|c]]]; [| | |lia]; vm_compute; reflexivity.
Qed.

(** A frame whose data are too short does not make [preprocess] fail: a
    cell whose byte lies past the end of the data is filled with NaN. *)
Theorem preprocess_short_data_gives_nan (img : ImageData) (c h w : nat) :
  c < 3 -> h < height img -> w < width img ->
  length (data img) <= (h * width img + w) * 4 + c ->
  tensor_data (preprocess img) !! interleaved_index (width img) c h w =
  Some NaN.
Proof.
  intros Hc Hh Hw Hshort. rewrite preprocess_interleaved by done.
  unfold data_get. rewrite lookup_ge_None_2 by done.
  by rewrite normalize_nan.
Qed.

Lemma preprocess_short_data_gives_nan_witness :
  tensor_data (preprocess (mkImageData [10; 20]%Z 1 1))
    !! interleaved_index 1 2 0 0 = Some NaN.
Proof.
  apply (preprocess_short_data_gives_nan (mkImageData [10; 20]%Z 1 1) 2 0 0);
    simpl; lia.
Defined.

Lemma byte_in_range (b : Z) : is_byte b -> In b (seqZ 0 256).
Proof.
  intros Hb. apply list_elem_of_In, elem_of_seqZ. unfold is_byte in Hb. lia.
Qed.

Lemma accurate_all_bytes (c : nat) (b : Z) :
  c < 3 -> is_byte b -> accurate c b = true.
Proof.
  intros Hc Hb. apply byte_in_range in Hb. revert b Hb.
  apply forallb_forall.
  destruct c as [|[|[|c]]]; [| | |lia]; vm_compute; reflexivity.
Qed.

(** On every byte of every channel the arithmetic of [preprocess], binary64
    operations and the rounding to binary32, gives a finite value within
    10^-6 of the exact [(b / 255 - mean[c]) / std[c]]. *)
Theorem preprocess_accurate_on_bytes
    (img : ImageData) (c h w : nat) (b : Z) :
  c < 3 -> h < height img -> w < width img ->
  data img !! ((h * width img + w) * 4 + c) = Some b ->
  is_byte b ->
  exists v q,
    tensor_data (preprocess img) !! interleaved_index (width img) c h w =
      Some v /\
    number_to_Q v = Some q /\
    within (1 # 1000000) q (exact_channel c b).
Proof.
  intros Hc Hh Hw Hdata Hb.
  pose proof (accurate_all_bytes c b Hc Hb) as Hacc. unfold accurate in Hacc.
  destruct (number_to_Q (fround (normalize c (of_Z b)))) as [q|] eqn:Hq;
    [|done].
  exists (fround (normalize c (of_Z b))), q. split.
  - rewrite preprocess_interleaved by done. unfold data_get. by rewrite Hdata.
  - split; [done|]. unfold within. by apply Qle_bool_iff.
Qed.

Lemma preprocess_accurate_on_bytes_witness :
  exists v q,
    tensor_data (preprocess (mkImageData [10; 20; 30; 255]%Z 1 1))
      !! interleaved_index 1 1 0 0 = Some v /\
    number_to_Q v = Some q /\
    within (1 # 1000000) q (exact_channel 1 20).
Proof.
  apply (preprocess_accurate_on_bytes
           (mkImageData [10; 20; 30; 255]%Z 1 1) 1 0 0 20%Z);
    [simpl; lia|simpl; lia|simpl; lia|reflexivity|unfold is_byte; lia].
Defined.

Lemma strictly_up_all_bytes (c : nat) (b : Z) :
  c < 3 -> (0 <= b < 255)%Z -> strictly_up c b = true.
Proof.
  intros Hc Hb.
  assert (In b (seqZ 0 255)) as Hin
    by (apply list_elem_of_In, elem_of_seqZ; lia).
  clear Hb. revert b Hin. apply forallb_forall.
  destruct c as [|[|[|c]]]; [| | |lia]; vm_compute; reflexivity.
Qed.

(** The normalisation keeps the bytes of a channel apart and in order: a
    greater byte is stored as a strictly greater value, also after the
    rounding to binary32. *)
Theorem normalize_strictly_monotone (c : nat) (b1 b2 : Z) :
  c < 3 -> is_byte b1 -> is_byte b2 -> (b1 < b2)%Z ->
  js_gt (fround (normalize c (of_Z b2))) (fround (normalize c (of_Z b1))) = true.
Proof.
  intros Hc Hb1 Hb2 Hlt. unfold js_gt, is_byte in *.
  assert (forall n : nat, (b1 + 1 + Z.of_nat n <= 255)%Z ->
            SFltb (fround (normalize c (of_Z b1)))
                  (fround (normalize c (of_Z (b1 + 1 + Z.of_nat n)))) = true)
    as Hup.
  { induction n as [|n IH]; intros Hn.
    - rewrite Z.add_0_r. apply (strictly_up_all_bytes c b1 Hc). lia.
    - apply SFltb_trans
        with (fround (normalize c (of_Z (b1 + 1 + Z.of_nat n)))).
      + apply IH. lia.
      + replace (b1 + 1 + Z.of_nat (S n))%Z
          with (b1 + 1 + Z.of_nat n + 1)%Z by lia.
        apply (strictly_up_all_bytes c _ Hc). lia. }
  replace b2 with (b1 + 1 + Z.of_nat (Z.to_nat (b2 - b1 - 1)))%Z by lia.
  apply Hup. lia.
Qed.

Lemma normalize_strictly_monotone_witness :
  js_gt (fround (normalize 0 (of_Z 128))) (fround (normalize 0 (of_Z 127))) =
  true.
Proof.
  apply (normalize_strictly_monotone 0 127 128);
    [lia|unfold is_byte; lia|unfold is_byte; lia|lia].
Defined.

(* ===================================================================== *)
(** ** More on the gate *)
(* ===================================================================== *)

Section MoreGate.

Variable now : nat -> Z.

(** The gate writes the overlay, the button, the timestamp and the count of
    clock reads, and nothing else. *)
Lemma gate_frame (l : string) (w : World) :
  let w' := gate now l w in
  modelLoaded w' = modelLoaded w /\ isPredicting w' = isPredicting w /\
  onload_armed w' = onload_armed w /\ media_pending w' = media_pending w /\
  onloadedmetadata w' = onloadedmetadata w /\ raf_queue w' = raf_queue w /\
  effects w' = effects w.
Proof.
  cbn zeta. destruct (decide (l = "good_quality")) as [->|Hne].
  - by rewrite gate_good.
  - destruct (poorQualityStartTime w) as [t0|] eqn:Hs.
    + by rewrite (gate_poor_next now l w t0).
    + by rewrite gate_poor_first.
Qed.

Lemma gate_all_cons (l : string) (ls : list string) (w : World) :
  gate_all now (l :: ls) w = gate_all now ls (gate now l w).
Proof. reflexivity. Qed.

Lemma frames_cons (r : Inference) (rs : list Inference) (w : World) :
  frames now (r :: rs) w = frames now rs (runInference now r w).
Proof. reflexivity. Qed.

Lemma gate_state_gate_all (ls : list string) (w1 w2 : World) :
  gate_state w1 = gate_state w2 ->
  gate_state (gate_all now ls w1) = gate_state (gate_all now ls w2).
Proof.
  revert w1 w2. induction ls as [|l ls IH]; intros w1 w2 H; [done|].
  rewrite !gate_all_cons. apply IH. by apply gate_state_gate.
Qed.

End MoreGate.

(** The loop is the gate run over the frames that got a label: what the
    user sees, the timestamp and the use of the clock after any iterations
    are those of [updateUI] applied to the labels in order, the failed
    iterations left out. *)
Theorem frames_gate_the_labelled_frames
    (now : nat -> Z) (rs : list Inference) (w : World) :
  gate_state (frames now rs w) =
  gate_state (gate_all now (omap label_of rs) w).
Proof.
  revert w. induction rs as [|r rs IH]; intros w; [done|].
  rewrite frames_cons. simpl omap.
  destruct (label_of r) as [l|] eqn:Hl.
  - rewrite (runInference_labelled now r l w Hl), gate_all_cons.
    rewrite <- IH. by apply gate_state_frames.
  - rewrite (runInference_failed now r w Hl).
    rewrite <- IH. by apply gate_state_frames.
Qed.

(** Whenever a frame leaves the capture button disabled, the overlay is
    shown with the message of that frame's label and the button reads
    [Take Anyway]: capture is never blocked without the reason on screen. *)
Theorem blocked_capture_is_explained
    (now : nat -> Z) (w : World) (l : string) :
  button_disabled (dom (gate now l w)) = true ->
  l <> "good_quality" /\
  overlay_display (dom (gate now l w)) = "block" /\
  overlay_textContent (dom (gate now l w)) = poor_message l /\
  button_textContent (dom (gate now l w)) = "Take Anyway".
Proof.
  intros Hdis. destruct (decide (l = "good_quality")) as [->|Hne].
  { by rewrite gate_good in Hdis. }
  split; [done|].
  assert (exists t t0, dom (gate now l w) = poor_dom l t t0) as (t & t0 & Hdom).
  { destruct (poorQualityStartTime w) as [t0|] eqn:Hs.
    - rewrite (gate_poor_next now l w t0) by done. eauto.
    - rewrite gate_poor_first by done. eauto. }
  rewrite Hdom in *. unfold poor_dom in *.
  by destruct (Qle_bool _ _).
Qed.

Lemma blocked_capture_is_explained_witness :
  let w := boot (mkDom "" "none" "Take Picture" false) in
  overlay_display (dom (gate seconds_clock "poor_framing" w)) = "block" /\
  overlay_textContent (dom (gate seconds_clock "poor_framing" w)) =
    poor_message "poor_framing".
Proof.
  intros w.
  destruct (blocked_capture_is_explained seconds_clock w "poor_framing"
              eq_refl) as (_ & Hshow & Htext & _).
  split; [exact Hshow|exact Htext].
Defined.

(** A good frame starts the grace period afresh: the next poor frame sets
    the timestamp to its own first reading of the clock and disables the
    button, however long the streak before the good frame had lasted,
    provided its two readings of the clock are less than 20 seconds apart. *)
Theorem grace_restarts_after_good_frame
    (now : nat -> Z) (w : World) (l : string) :
  l <> "good_quality" ->
  (now (S (clock_reads w)) - now (clock_reads w) < 20000)%Z ->
  let w' := gate now l (gate now "good_quality" w) in
  poorQualityStartTime w' = Some (now (clock_reads w)) /\
  button_disabled (dom w') = true /\
  overlay_textContent (dom w') = poor_message l.
Proof.
  intros Hl Hclose. cbn zeta.
  rewrite (gate_poor_first now l (gate now "good_quality" w) Hl)
    by (by rewrite gate_good).
  rewrite gate_good. simpl.
  by rewrite poor_dom_within_grace.
Qed.

Lemma grace_restarts_after_good_frame_witness :
  let w :=
    set_clock_reads 40
      (set_poorQualityStartTime (Some 0%Z)
         (boot (mkDom "You can take the picture now." "block" "Take Anyway"
                  false))) in
  let w' := gate seconds_clock "blurry" (gate seconds_clock "good_quality" w) in
  poorQualityStartTime w' = Some 40000%Z /\
  button_disabled (dom w') = true /\
  overlay_textContent (dom w') = poor_message "blurry".
Proof.
  intros w.
  apply (grace_restarts_after_good_frame seconds_clock w "blurry");
    [discriminate|vm_compute; reflexivity].
Defined.

(* ===================================================================== *)
(** ** Strings *)
(* ===================================================================== *)

(** [replace] with one-character strings rewrites the first occurrence and
    only that one: what precedes it has none, what follows is kept as it
    is. *)
Theorem replace_first_first_occurrence (c d : ascii) (s1 s2 : string) :
  ~ In c (list_ascii_of_string s1) ->
  replace_first c d (s1 ++ String c s2)%string = (s1 ++ String d s2)%string.
Proof.
  induction s1 as [|a s1 IH]; intros Hnot; simpl.
  - by rewrite Ascii.eqb_refl.
  - simpl in Hnot. destruct (Ascii.eqb a c) eqn:Hac.
    + apply Ascii.eqb_eq in Hac. tauto.
    + change (String a s1 ++ String d s2)%string
        with (String a (s1 ++ String d s2)%string).
      f_equal. apply IH. tauto.
Qed.

Lemma replace_first_first_occurrence_witness :
  replace_first "_" " " "not_in_focus" = "not in_focus".
Proof.
  apply (replace_first_first_occurrence "_" " " "not" "in_focus").
  simpl. intros [H|[H|[H|[]]]]; discriminate H.
Defined.

(** Without an occurrence the string comes back unchanged. *)
Theorem replace_first_absent (c d : ascii) (s : string) :
  ~ In c (list_ascii_of_string s) -> replace_first c d s = s.
Proof.
  induction s as [|a s IH]; intros Hnot; simpl; [done|].
  simpl in Hnot. destruct (Ascii.eqb a c) eqn:Hac.
  - apply Ascii.eqb_eq in Hac. tauto.
  - f_equal. apply IH. tauto.
Qed.

Lemma replace_first_absent_witness : replace_first "_" " " "blurry" = "blurry".
Proof.
  apply (replace_first_absent "_" " " "blurry").
  simpl. intros [H|[H|[H|[H|[H|[H|[]]]]]]]; discriminate H.
Defined.

(* ===================================================================== *)
(** ** More on start-up and on the life of the loop *)
(* ===================================================================== *)

Ltac order_of_events :=
  intuition (try discriminate; try congruence; auto).

Section MoreLifecycle.

Variable now : nat -> Z.

(** An iteration touches no flag and no handler, queues one callback and
    appends to the trace, with or without the error line. *)
Lemma runInference_frame (r : Inference) (w : World) :
  let w' := runInference now r w in
  modelLoaded w' = modelLoaded w /\ isPredicting w' = isPredicting w /\
  onload_armed w' = onload_armed w /\ media_pending w' = media_pending w /\
  onloadedmetadata w' = onloadedmetadata w /\
  raf_queue w' = S (raf_queue w) /\
  (effects w' = effects w ++ [TfDispose; RequestAnimationFrame] \/
   effects w' =
     effects w ++
     [ConsoleError "Prediction failed:"; TfDispose; RequestAnimationFrame]).
Proof.
  cbn zeta. destruct (label_of r) as [l|] eqn:Hl.
  - rewrite (runInference_labelled now r l w Hl).
    destruct (gate_frame now l w) as (H1 & H2 & H3 & H4 & H5 & H6 & H7).
    unfold finish. simpl. rewrite H1, H2, H3, H4, H5, H6, H7.
    repeat (split; [done|]). left. by rewrite <- app_assoc.
  - rewrite (runInference_failed now r w Hl). unfold finish. simpl.
    repeat (split; [done|]). right. by rewrite <- !app_assoc.
Qed.

Lemma handle_all_snoc (evs : list Event) (ev : Event) (w : World) :
  handle_all now (evs ++ [ev]) w = handle now ev (handle_all now evs w).
Proof. unfold handle_all. by rewrite foldl_app. Qed.

Lemma handle_all_cons (ev : Event) (evs : list Event) (w : World) :
  handle_all now (ev :: evs) w = handle_all now evs (handle now ev w).
Proof. reflexivity. Qed.

Lemma handle_all_app (evs evs' : list Event) (w : World) :
  handle_all now (evs ++ evs') w =
  handle_all now evs' (handle_all now evs w).
Proof. unfold handle_all. by rewrite foldl_app. Qed.

Lemma started_in_order_handle (ev : Event) (w : World) :
  started_in_order w -> started_in_order (handle now ev w).
Proof.
  intros Hw. pose proof Hw as [Hcam Hloop]. destruct ev as [loaded hasMedia|granted|r|r]; simpl.
  - destruct (onload_armed w); [|done].
    unfold initializeModel, startWebcam, started_in_order.
    destruct loaded; [destruct hasMedia|]; simpl;
      rewrite ?elem_of_app, ?elem_of_cons; order_of_events.
  - destruct (media_pending w) eqn:Hp; [|done].
    unfold media_settled, started_in_order.
    destruct granted; simpl; rewrite ?elem_of_app; order_of_events.
  - destruct (onloadedmetadata w) eqn:Ho; [|done].
    unfold loaded_metadata, startPredictionLoop.
    change (modelLoaded (emit VideoPlay w)) with (modelLoaded w).
    change (isPredicting (emit VideoPlay w)) with (isPredicting w).
    destruct (modelLoaded w) eqn:Hm; simpl.
    + destruct (isPredicting w) eqn:Hi; simpl.
      * unfold started_in_order. simpl. rewrite Ho, Hm, Hi, !elem_of_app.
        order_of_events.
      * destruct (runInference_frame r (set_isPredicting true (emit VideoPlay w)))
          as (H1 & H2 & _ & H4 & H5 & _ & H7).
        unfold started_in_order.
        destruct H7 as [H7|H7]; rewrite H1, H2, H4, H5, H7; simpl;
          rewrite Ho, Hm, !elem_of_app, !elem_of_cons; order_of_events.
    + unfold started_in_order. simpl. rewrite Ho, Hm, !elem_of_app.
      order_of_events.
  - destruct (raf_queue w) as [|n]; [done|].
    destruct (runInference_frame r (set_raf_queue n w))
      as (H1 & H2 & _ & H4 & H5 & _ & H7).
    unfold started_in_order.
    destruct H7 as [H7|H7]; rewrite H1, H2, H4, H5, H7; simpl;
      rewrite !elem_of_app; order_of_events.
Qed.

Lemma started_in_order_reachable (d : Dom) (evs : list Event) :
  started_in_order (handle_all now evs (boot d)).
Proof.
  induction evs as [|ev evs IH] using rev_ind.
  - split; unfold handle_all; simpl; [intros [?|?]; done|done].
  - rewrite handle_all_snoc. by apply started_in_order_handle.
Qed.

Lemma flag_tracks_queue_handle (ev : Event) (w : World) :
  flag_tracks_queue w -> flag_tracks_queue (handle now ev w).
Proof.
  intros Hw. pose proof Hw as [Hoff Hon]. destruct ev as [loaded hasMedia|granted|r|r]; simpl.
  - destruct (onload_armed w); [|done].
    unfold initializeModel, startWebcam.
    destruct loaded; [destruct hasMedia|]; done.
  - destruct (media_pending w); [|done].
    unfold media_settled. by destruct granted.
  - destruct (onloadedmetadata w); [|done].
    unfold loaded_metadata, startPredictionLoop.
    change (modelLoaded (emit VideoPlay w)) with (modelLoaded w).
    change (isPredicting (emit VideoPlay w)) with (isPredicting w).
    destruct (modelLoaded w); [|done].
    destruct (isPredicting w) eqn:Hi; [done|]. simpl.
    destruct (runInference_frame r (set_isPredicting true (emit VideoPlay w)))
      as (_ & H2 & _ & _ & _ & H6 & _).
    split; rewrite H2, H6; simpl; [done|]. intros _. by rewrite Hoff.
  - destruct (raf_queue w) as [|n] eqn:Hq; [done|].
    destruct (runInference_frame r (set_raf_queue n w))
      as (_ & H2 & _ & _ & _ & H6 & _).
    split; rewrite H2, H6; simpl; intros Hi.
    + specialize (Hoff Hi). lia.
    + specialize (Hon Hi). lia.
Qed.

Lemma flag_tracks_queue_handle_all (evs : list Event) (w : World) :
  flag_tracks_queue w -> flag_tracks_queue (handle_all now evs w).
Proof.
  revert w. induction evs as [|ev evs IH]; intros w H; [done|].
  apply (IH (handle now ev w)). by apply flag_tracks_queue_handle.
Qed.

Lemma isPredicting_stays (ev : Event) (w : World) :
  isPredicting w = true -> isPredicting (handle now ev w) = true.
Proof.
  intros Hi. destruct ev as [loaded hasMedia|granted|r|r]; simpl.
  - destruct (onload_armed w); [|done].
    unfold initializeModel, startWebcam.
    destruct loaded; [destruct hasMedia|]; done.
  - destruct (media_pending w); [|done].
    unfold media_settled. by destruct granted.
  - destruct (onloadedmetadata w); [|done].
    unfold loaded_metadata.
    rewrite startPredictionLoop_guarded; [done|by right].
  - destruct (raf_queue w) as [|n]; [done|].
    destruct (runInference_frame r (set_raf_queue n w)) as (_ & H2 & _).
    by rewrite H2.
Qed.

Lemma isPredicting_stays_all (evs : list Event) (w : World) :
  isPredicting w = true -> isPredicting (handle_all now evs w) = true.
Proof.
  revert w. induction evs as [|ev evs IH]; intros w H; [done|].
  apply (IH (handle now ev w)). by apply isPredicting_stays.
Qed.

End MoreLifecycle.

(** The prediction loop runs only after the model has loaded, the camera
    has been requested and granted, and the video has been played: whatever
    the events, [isPredicting] is not set before. *)
Theorem loop_runs_only_after_model_and_camera
    (now : nat -> Z) (d : Dom) (evs : list Event) :
  isPredicting (handle_all now evs (boot d)) = true ->
  let w := handle_all now evs (boot d) in
  modelLoaded w = true /\ onloadedmetadata w = true /\
  GetUserMedia ∈ effects w /\ VideoPlay ∈ effects w.
Proof.
  intros Hi. destruct (started_in_order_reachable now d evs) as [_ H].
  by apply H.
Qed.

Lemma loop_runs_only_after_model_and_camera_witness :
  let evs :=
    [WindowLoad true true; MediaSettled true;
     LoadedMetadata (Scores tie_scores)] in
  let w :=
    handle_all seconds_clock evs (boot (mkDom "" "none" "Take Picture" false)) in
  modelLoaded w = true /\ onloadedmetadata w = true /\
  GetUserMedia ∈ effects w /\ VideoPlay ∈ effects w.
Proof.
  intros evs.
  apply (loop_runs_only_after_model_and_camera seconds_clock
           (mkDom "" "none" "Take Picture" false) evs).
  vm_compute. reflexivity.
Defined.

(** Once started the loop never stops and never doubles: after any further
    events the flag is still set and exactly one callback is queued, so the
    next animation frame runs one more iteration. *)
Theorem loop_never_stops
    (now : nat -> Z) (d : Dom) (evs evs' : list Event) :
  isPredicting (handle_all now evs (boot d)) = true ->
  let w := handle_all now (evs ++ evs') (boot d) in
  running w /\
  forall r, handle now (AnimationFrame r) w =
            runInference now r (set_raf_queue 0 w).
Proof.
  intros Hi. cbn zeta. rewrite handle_all_app.
  pose proof (isPredicting_stays_all now evs' _ Hi) as Hi'.
  rewrite <- handle_all_app in *.
  assert (flag_tracks_queue (handle_all now (evs ++ evs') (boot d)))
    as [_ Hon] by (apply flag_tracks_queue_handle_all; by split).
  specialize (Hon Hi'). split; [by split|].
  intros r. simpl. by rewrite Hon.
Qed.

Lemma loop_never_stops_witness :
  let evs :=
    [WindowLoad true true; MediaSettled true;
     LoadedMetadata (Scores tie_scores)] in
  let evs' :=
    [AnimationFrame (Rejected "lost context"); LoadedMetadata (Scores []);
     AnimationFrame (Scores tie_scores)] in
  running
    (handle_all seconds_clock (evs ++ evs')
       (boot (mkDom "" "none" "Take Picture" false))).
Proof.
  intros evs evs'.
  apply (loop_never_stops seconds_clock
           (mkDom "" "none" "Take Picture" false) evs evs').
  vm_compute. reflexivity.
Defined.

(** When the camera is refused the overlay shows the refusal and the page
    stops there: the video is never played and no iteration is run or
    queued; the capture button is left as the markup had it. *)
Theorem camera_denied_halts
    (now : nat -> Z) (d : Dom) (evs : list Event) :
  let w :=
    handle_all now (WindowLoad true true :: MediaSettled false :: evs)
      (boot d) in
  overlay_textContent (dom w) = "Webcam access denied. Please enable it." /\
  overlay_display (dom w) = "block" /\
  button_disabled (dom w) = button_disabled d /\
  button_textContent (dom w) = button_textContent d /\
  effects w =
    [LoadModel "efficientnet_quality_model.onnx";
     ConsoleLog "ONNX model loaded successfully!";
     GetUserMedia;
     ConsoleError "Webcam access denied:"] /\
  raf_queue w = 0 /\
  isPredicting w = false.
Proof.
  cbv zeta. rewrite !handle_all_cons.
  assert (halted (handle now (MediaSettled false)
                    (handle now (WindowLoad true true) (boot d)))) as Hh
    by (repeat split; vm_compute; reflexivity).
  rewrite (handle_all_halted now evs _ Hh).
  repeat split; vm_compute; reflexivity.
Qed.

(** Without [navigator.mediaDevices.getUserMedia] the page stops silently
    after loading the model: [startWebcam] does nothing, the overlay and the
    button stay as the markup had them, and no loop ever starts. *)
Theorem missing_camera_api_is_silent
    (now : nat -> Z) (d : Dom) (evs : list Event) :
  let w := handle_all now (WindowLoad true false :: evs) (boot d) in
  dom w = d /\
  effects w =
    [LoadModel "efficientnet_quality_model.onnx";
     ConsoleLog "ONNX model loaded successfully!"] /\
  modelLoaded w = true /\
  raf_queue w = 0 /\
  isPredicting w = false.
Proof.
  cbv zeta. rewrite !handle_all_cons.
  assert (halted (handle now (WindowLoad true false) (boot d))) as Hh
    by (repeat split; vm_compute; reflexivity).
  rewrite (handle_all_halted now evs _ Hh).
  repeat split; vm_compute; reflexivity.
Qed.

Lemma calls_app (e : Effect) (l1 l2 : list Effect) :
  calls e (l1 ++ l2) = calls e l1 + calls e l2.
Proof. unfold calls. by rewrite filter_app, length_app. Qed.

Ltac count_calls :=
  rewrite ?calls_app;
  repeat match goal with
  | |- context [calls ?e (?x :: ?l)] =>
      let v := eval vm_compute in (calls e (x :: l)) in
      change (calls e (x :: l)) with v
  end.

Lemma trace_ok_handle (now : nat -> Z) (ev : Event) (w : World) :
  trace_ok w -> trace_ok (handle now ev w).
Proof.
  intros Hw. pose proof Hw as (Hfresh & Hcam & Hload & Hpair).
  destruct ev as [loaded hasMedia|granted|r|r]; simpl.
  - destruct (onload_armed w) eqn:Ha; [|done].
    destruct (Hfresh eq_refl) as (He & _).
    unfold initializeModel, startWebcam, trace_ok.
    destruct loaded; [destruct hasMedia|]; simpl; rewrite He;
      (split; [done|]); vm_compute; lia.
  - destruct (media_pending w) eqn:Hp; [|done].
    destruct (onload_armed w) eqn:Ha;
      [destruct (Hfresh eq_refl) as (_ & Hp' & _); congruence|].
    unfold media_settled, trace_ok.
    destruct granted; simpl; rewrite Ha; (split; [done|]);
      count_calls; lia.
  - destruct (onloadedmetadata w) eqn:Ho; [|done].
    destruct (onload_armed w) eqn:Ha;
      [destruct (Hfresh eq_refl) as (_ & _ & Ho' & _); congruence|].
    unfold loaded_metadata, startPredictionLoop.
    change (modelLoaded (emit VideoPlay w)) with (modelLoaded w).
    change (isPredicting (emit VideoPlay w)) with (isPredicting w).
    destruct (negb (modelLoaded w) || isPredicting w).
    + unfold trace_ok. simpl. rewrite Ha. split; [done|]. count_calls. lia.
    + destruct (runInference_frame now r
                  (set_isPredicting true (emit VideoPlay w)))
        as (_ & _ & H3 & _ & _ & _ & H7).
      unfold trace_ok.
      destruct H7 as [H7|H7]; rewrite H3, H7; simpl; rewrite Ha;
        (split; [done|]); count_calls; lia.
  - destruct (raf_queue w) as [|n] eqn:Hq; [done|].
    destruct (onload_armed w) eqn:Ha;
      [destruct (Hfresh eq_refl) as (_ & _ & _ & Hq'); congruence|].
    destruct (runInference_frame now r (set_raf_queue n w))
      as (_ & _ & H3 & _ & _ & _ & H7).
    unfold trace_ok.
    destruct H7 as [H7|H7]; rewrite H3, H7; simpl; rewrite Ha;
      (split; [done|]); count_calls; lia.
Qed.

(** Whatever the events, the camera is requested at most once, the model
    file is loaded at most once, and [tf.dispose()] has run once for every
    iteration queued. *)
Theorem external_calls_are_disciplined
    (now : nat -> Z) (d : Dom) (evs : list Event) :
  let w := handle_all now evs (boot d) in
  calls GetUserMedia (effects w) <= 1 /\
  calls (LoadModel "efficientnet_quality_model.onnx") (effects w) <= 1 /\
  calls TfDispose (effects w) = calls RequestAnimationFrame (effects w).
Proof.
  cbv zeta.
  assert (trace_ok (handle_all now evs (boot d))) as (_ & H); [|exact H].
  induction evs as [|ev evs IH] using rev_ind.
  - unfold handle_all. simpl. split; [done|]. vm_compute. lia.
  - rewrite handle_all_snoc. by apply trace_ok_handle.
Qed.

(* ===================================================================== *)
(** ** The first version of the loop *)
(* ===================================================================== *)

Section V1Facts.

Variable session_run : Tensor -> Inference.

(** One iteration of the first version: the timer and the clock are never
    touched; a labelled frame disables the button exactly when it is not
    good; a failed one leaves the overlay and the button alone. *)
Lemma v1_frame (f : Result ImageData) (w : World) :
  let w' := V1.runInference session_run f w in
  poorQualityStartTime w' = poorQualityStartTime w /\
  clock_reads w' = clock_reads w /\
  match V1.label_of session_run f with
  | Some l =>
      button_disabled (dom w') = bool_decide (l <> "good_quality") /\
      overlay_display (dom w') =
        (if decide (l = "good_quality") then "none" else "block") /\
      (l <> "good_quality" ->
       button_textContent (dom w') = button_textContent (dom w))
  | None => dom w' = dom w
  end.
Proof.
  cbv zeta. unfold V1.runInference, V1.try_block, V1.label_of.
  destruct f as [img|e]; [|done].
  destruct (session_run (preprocess img)) as [e|output]; [done|].
  destruct (labels !! argmax output) as [l|]; [|done].
  unfold V1.updateUI.
  destruct (decide (Some l = Some "good_quality")) as [[= ->]|Hne]; [done|].
  assert (l <> "good_quality") as Hl by congruence.
  rewrite (bool_decide_eq_true_2 _ Hl).
  destruct (decide (l = "good_quality")); done.
Qed.

Lemma v1_frames_snoc (fs : list (Result ImageData)) (f : Result ImageData)
    (w : World) :
  V1.frames session_run (fs ++ [f]) w =
  V1.runInference session_run f (V1.frames session_run fs w).
Proof. unfold V1.frames. by rewrite foldl_app. Qed.

Lemma v1_frames_state (fs : list (Result ImageData)) (w : World) :
  let w' := V1.frames session_run fs w in
  poorQualityStartTime w' = poorQualityStartTime w /\
  clock_reads w' = clock_reads w /\
  forall l,
    last (omap (V1.label_of session_run) fs) = Some l ->
    button_disabled (dom w') = bool_decide (l <> "good_quality").
Proof.
  cbv zeta. induction fs as [|f fs IH] using rev_ind; [done|].
  destruct IH as (Htimer & Hclock & Hlast).
  rewrite v1_frames_snoc.
  destruct (v1_frame f (V1.frames session_run fs w)) as (Ht & Hc & Hdom).
  rewrite Ht, Hc. split; [done|]. split; [done|].
  intros l. rewrite omap_app. simpl omap.
  destruct (V1.label_of session_run f) as [l'|].
  - rewrite last_snoc. intros [= ->]. by destruct Hdom.
  - rewrite app_nil_r, Hdom. apply Hlast.
Qed.

End V1Facts.

(** The first version of the gate has no grace period: after any frames
    the button is disabled exactly when the last frame that got a label was
    not good, however long the poor streak has lasted, and neither the clock
    nor the timestamp is ever used. *)
Theorem v1_gate_has_no_timer
    (session_run : Tensor -> Inference) (fs : list (Result ImageData))
    (w : World) (l : string) :
  last (omap (V1.label_of session_run) fs) = Some l ->
  let w' := V1.frames session_run fs w in
  button_disabled (dom w') = bool_decide (l <> "good_quality") /\
  poorQualityStartTime w' = poorQualityStartTime w /\
  clock_reads w' = clock_reads w.
Proof.
  intros Hl. destruct (v1_frames_state session_run fs w) as (Ht & Hc & Hlast).
  cbv zeta. split; [by apply Hlast|]. by split.
Qed.

Lemma v1_gate_has_no_timer_witness :
  let frame := Ok (mkImageData [10; 20; 30; 255]%Z 1 1) in
  let w :=
    V1.frames always_blurry (replicate 3 frame)
      (boot (mkDom "" "none" "Take Picture" false)) in
  button_disabled (dom w) = true /\
  poorQualityStartTime w = None /\
  clock_reads w = 0.
Proof.
  intros frame.
  apply (v1_gate_has_no_timer always_blurry (replicate 3 frame)
           (boot (mkDom "" "none" "Take Picture" false)) "blurry").
  vm_compute. reflexivity.
Defined.

(** The pipeline of the timed loop at work on a gray frame: the cell of
    channel 1, row 0, column 1 holds the normalised sample of that very
    channel and pixel. *)
Lemma input_tensor_lookup_witness :
  tensor_data (Tf.input_tensor (SFdiv 24 128) (SFsub 24 128) gray_resized)
    !! planar_index 224 224 1 0 1 =
  Some (Tf.normalize32 (SFdiv 24 128) (SFsub 24 128) 1 (of_Z 128)).
Proof.
  apply (input_tensor_lookup (SFdiv 24 128) (SFsub 24 128) gray_resized
           224 224 1 0 1 (of_Z 128));
    [reflexivity|lia|lia|lia|vm_compute; reflexivity].
Defined.
